(** * Kalakar audio scripts: speaker_diarize.py and whisper_transcribe.py

    A shallow embedding of the two command-line adapters under
    [backend/scripts] and the properties their specification states.

    - Python dictionaries that are only probed by key ([speaker_mapping],
      [os.environ], the engine's word and segment dictionaries) are stdpp
      [gmap]s; [speaker_times], which the script iterates with [.items()],
      is an insertion-ordered association list, as a Python [dict] is.
    - Exceptions, [sys.exit] and the calls made to the external engines are
      threaded through a small monad: a computation takes the log of
      observable events so far and returns either a value or a raised
      exception, with the extended log.
    - The engines themselves (whisper, pyannote, torch, the file system,
      the environment) are a [World] record of answers; every theorem
      quantifies over it.
    - Times are Python floats.  The loop is written over an interface
      [PyFloat] (zero, [+], [-], [round]) so that the structural theorems
      hold for any arithmetic, IEEE doubles included; concrete examples use
      exact rationals with Python's round-half-to-even. *)

From Stdlib Require Import QArith Qround Ascii.
From stdpp Require Import gmap strings list pretty.

#[local] Set Warnings "-clear-no-such-hyp".

(* ===================================================================== *)
(** * Part I: definitions                                                 *)
(* ===================================================================== *)

(** ** Python exceptions *)

(** The exceptions the scripts can meet.  [OtherException msg] stands for
    any other subclass of [Exception] whose [str] is [msg]; [SystemExit]
    and [KeyboardInterrupt] derive from [BaseException] only. *)
Inductive PyExc :=
| ImportError (msg : string)
| KeyError (key : string)
| OtherException (msg : string)
| SystemExit (code : Z)
| KeyboardInterrupt.

(** [isinstance(e, Exception)] *)
Definition isinstance_Exception (e : PyExc) : bool :=
  match e with
  | ImportError _ | KeyError _ | OtherException _ => true
  | SystemExit _ | KeyboardInterrupt => false
  end.

(** [isinstance(e, ImportError)] *)
Definition isinstance_ImportError (e : PyExc) : bool :=
  match e with
  | ImportError _ => true
  | _ => false
  end.

(** [str(e)].  A [KeyError] prints the repr of its key; the keys used by the
    scripts are plain identifiers, whose repr is the key in single quotes. *)
Definition py_str (e : PyExc) : string :=
  match e with
  | ImportError msg => msg
  | KeyError key => "'" +:+ key +:+ "'"
  | OtherException msg => msg
  | SystemExit code => pretty code
  | KeyboardInterrupt => ""
  end.

(** ** The computation monad *)

Inductive Outcome (A : Type) :=
| Ret (a : A)
| Raise (e : PyExc).
Arguments Ret {A} a.
Arguments Raise {A} e.

(** How the interpreter leaves: [sys.exit(code)] (or falling off the end of
    the script, code 0), or an exception nobody caught. *)
Inductive ProcStatus :=
| Exited (code : Z)
| Unhandled (e : PyExc).

Section Monad.
Context {Ev : Type}.

Definition M (A : Type) : Type := list Ev → Outcome A * list Ev.

Definition ret {A} (a : A) : M A := λ tr, (Ret a, tr).

Definition bind {A B} (m : M A) (k : A → M B) : M B :=
  λ tr, match m tr with
        | (Ret a, tr') => k a tr'
        | (Raise e, tr') => (Raise e, tr')
        end.

Definition raise {A} (e : PyExc) : M A := λ tr, (Raise e, tr).

(** A call into the outside world: log the event, then return or raise
    what the world answers. *)
Definition call {A} (ev : Ev) (answer : Outcome A) : M A :=
  λ tr, (answer, tr ++ [ev]).

(** [try: body except <class> as e: handler e] *)
Definition try_except {A} (body : M A) (catches : PyExc → bool)
    (handler : PyExc → M A) : M A :=
  λ tr, match body tr with
        | (Raise e, tr') => if catches e then handler e tr' else (Raise e, tr')
        | r => r
        end.

(** [sys.exit(code)] raises [SystemExit]. *)
Definition sys_exit {A} (code : Z) : M A := raise (SystemExit code).

(** Run a script from an empty log. *)
Definition run (script : M unit) : list Ev * ProcStatus :=
  match script [] with
  | (Ret _, tr) => (tr, Exited 0)
  | (Raise (SystemExit code), tr) => (tr, Exited code)
  | (Raise e, tr) => (tr, Unhandled e)
  end.
End Monad.
Arguments M : clear implicits.

Notation "x ←! m ; k" := (bind m (λ x, k))
  (at level 100, m at next level, right associativity, only parsing).
Notation "m ;! k" := (bind m (λ _, k))
  (at level 100, right associativity, only parsing).

(** ** Python truthiness of an optional string *)

(** [None] and the empty string are falsy. *)
Definition truthy (o : option string) : bool :=
  match o with
  | Some s => negb (String.eqb s "")
  | None => false
  end.

(** [a or b] *)
Definition py_or (a b : option string) : option string :=
  if truthy a then a else b.

(** ** Floats *)

(** The arithmetic the diarization script uses on times. *)
Class PyFloat (R : Type) := {
  fzero : R;                (* the literal 0 *)
  fadd : R → R → R;         (* x + y *)
  fsub : R → R → R;         (* x - y *)
  fround : nat → R → R;     (* round(x, ndigits) *)
}.

(** Exact rationals in lowest terms, with round-half-to-even. *)
Definition Qround_half_even (ndigits : nat) (x : Q) : Q :=
  let scale := Z.to_pos (10 ^ Z.of_nat ndigits) in
  let y := (x * inject_Z (Z.pos scale))%Q in
  let f := Qfloor y in
  let n := match (y - inject_Z f ?= 1 # 2)%Q with
           | Lt => f
           | Gt => (f + 1)%Z
           | Eq => if Z.even f then f else (f + 1)%Z
           end in
  Qred (n # scale).

#[export] Instance PyFloat_Q : PyFloat Q := {
  fzero := 0%Q;
  fadd x y := Qred (x + y);
  fsub x y := Qred (x - y);
  fround := Qround_half_even;
}.

(** ** Insertion-ordered dictionaries with integer keys *)

Section Dict.
Context {V : Type}.

(** [d.get(k)] *)
Fixpoint dict_get (k : nat) (d : list (nat * V)) : option V :=
  match d with
  | [] => None
  | (k', v) :: d' => if Nat.eqb k k' then Some v else dict_get k d'
  end.

(** [k in d] *)
Definition dict_mem (k : nat) (d : list (nat * V)) : bool :=
  match dict_get k d with
  | Some _ => true
  | None => false
  end.

(** [d[k] = v]: an existing key keeps its place, a new key goes last. *)
Fixpoint dict_set (k : nat) (v : V) (d : list (nat * V)) : list (nat * V) :=
  match d with
  | [] => [(k, v)]
  | (k', v') :: d' =>
      if Nat.eqb k k' then (k, v) :: d' else (k', v') :: dict_set k v d'
  end.

Fixpoint insert_by_key (x : nat * V) (l : list (nat * V)) : list (nat * V) :=
  match l with
  | [] => [x]
  | y :: l' => if Nat.leb x.1 y.1 then x :: l else y :: insert_by_key x l'
  end.

(** [sorted(d.items())].  Python compares the [(key, value)] tuples
    lexicographically; the keys of a dictionary are distinct, so the
    comparison is decided by the key and the values are never compared.
    The sort is stable. *)
Definition sorted_items (d : list (nat * V)) : list (nat * V) :=
  foldr insert_by_key [] d.
End Dict.

(** ** speaker_diarize.py *)

Module speaker_diarize.

Record Turn (R : Type) := { t_start : R; t_end : R }.
Arguments t_start {R} _.
Arguments t_end {R} _.

Record Segment (R : Type) := {
  seg_start : R;
  seg_end : R;
  seg_speaker : string;
  seg_speakerId : nat;
}.
Arguments seg_start {R} _.
Arguments seg_end {R} _.
Arguments seg_speaker {R} _.
Arguments seg_speakerId {R} _.

Record Speaker (R : Type) := {
  sp_id : nat;
  sp_name : string;
  sp_total_duration : R;
}.
Arguments sp_id {R} _.
Arguments sp_name {R} _.
Arguments sp_total_duration {R} _.

(** The dictionary the script prints: the success shape or the failure
    shape. *)
Inductive Result (R : Type) :=
| Success (method : string) (speaker_count : nat)
          (segments : list (Segment R)) (speakers : list (Speaker R))
| Failure (error : string).
Arguments Success {R} _ _ _ _.
Arguments Failure {R} _.

(** [result.get("success")] *)
Definition success {R} (r : Result R) : bool :=
  match r with
  | Success _ _ _ _ => true
  | Failure _ => false
  end.

(** What the script does that the outside can see. *)
Inductive Event (R : Type) :=
| EvImport (module : string)
| EvFromPretrained (checkpoint token : string)
| EvCudaIsAvailable
| EvPipelineTo (device : string)
| EvPipelineCall (audio_path : string)
| EvPrint (doc : Result R).
Arguments EvImport {R} _.
Arguments EvFromPretrained {R} _ _.
Arguments EvCudaIsAvailable {R}.
Arguments EvPipelineTo {R} _.
Arguments EvPipelineCall {R} _.
Arguments EvPrint {R} _.

(** The answers of the outside world.  [pipeline_call] is
    [pipeline(audio_path)] followed by [itertracks(yield_label=True)]:
    the tracks in the order the engine yields them, or the exception that
    interrupts them. *)
Record World (R : Type) := {
  path_exists : string → bool;
  environ : gmap string string;
  import_pyannote : Outcome unit;
  import_torch : Outcome unit;
  from_pretrained : string → string → Outcome unit;
  cuda_is_available : Outcome bool;
  pipeline_to : string → Outcome unit;
  pipeline_call : string → Outcome (list (Turn R * string));
}.
Arguments path_exists {R} _ _.
Arguments environ {R} _.
Arguments import_pyannote {R} _.
Arguments import_torch {R} _.
Arguments from_pretrained {R} _ _ _.
Arguments cuda_is_available {R} _.
Arguments pipeline_to {R} _ _.
Arguments pipeline_call {R} _ _.

(** The namespace [parser.parse_args()] returned; a usage error or
    [--help] ends the run inside that call. *)
Record Args := {
  audio_path : string;
  token : option string;
  simple : bool;
}.

(** The four variables the loop over the tracks updates. *)
Record LoopState (R : Type) := {
  segments : list (Segment R);
  speaker_times : list (nat * R);
  speaker_mapping : gmap string nat;
  speaker_counter : nat;
}.
Arguments segments {R} _.
Arguments speaker_times {R} _.
Arguments speaker_mapping {R} _.
Arguments speaker_counter {R} _.

Section Script.
Context {R : Type} `{PyFloat R}.

Definition speaker_name (speaker_id : nat) : string :=
  "Speaker " +:+ pretty speaker_id.

Definition simple_diarization (audio_path : string) : Result R :=
  Success "fallback" 1 []
    [ {| sp_id := 1; sp_name := "Speaker 1"; sp_total_duration := fzero |} ].

Definition loop_init : LoopState R :=
  {| segments := []; speaker_times := []; speaker_mapping := ∅;
     speaker_counter := 1 |}.

(** One iteration of [for turn, _, speaker in diarization.itertracks(...)].
    [speaker_mapping[speaker]] and [speaker_times[speaker_id]] are read
    right after the key was ensured, so the lookups cannot fail; the
    defaults of [!!!] and [default] are never used. *)
Definition loop_body (st : LoopState R) (track : Turn R * string) : LoopState R :=
  let '(turn, speaker) := track in
  let '(mapping, counter) :=
    match speaker_mapping st !! speaker with
    | None => (<[speaker := speaker_counter st]> (speaker_mapping st),
               speaker_counter st + 1)
    | Some _ => (speaker_mapping st, speaker_counter st)
    end in
  let speaker_id := mapping !!! speaker in
  let times :=
    if dict_mem speaker_id (speaker_times st) then speaker_times st
    else dict_set speaker_id fzero (speaker_times st) in
  let times :=
    dict_set speaker_id
      (fadd (default fzero (dict_get speaker_id times))
            (fsub (t_end turn) (t_start turn)))
      times in
  {| segments := segments st ++
       [ {| seg_start := fround 3 (t_start turn);
            seg_end := fround 3 (t_end turn);
            seg_speaker := speaker_name speaker_id;
            seg_speakerId := speaker_id |} ];
     speaker_times := times;
     speaker_mapping := mapping;
     speaker_counter := counter |}.

Definition run_loop (tracks : list (Turn R * string)) : LoopState R :=
  foldl loop_body loop_init tracks.

(** The list comprehension that builds [speakers]. *)
Definition build_speakers (speaker_times : list (nat * R)) : list (Speaker R) :=
  (λ '(speaker_id, duration),
     {| sp_id := speaker_id; sp_name := speaker_name speaker_id;
        sp_total_duration := fround 2 duration |})
  <$> sorted_items speaker_times.

(** Everything after [diarization = pipeline(audio_path)]. *)
Definition process_results (tracks : list (Turn R * string)) : Result R :=
  let st := run_loop tracks in
  let speakers := build_speakers (speaker_times st) in
  Success "pyannote" (length speakers) (segments st) speakers.

(** [token = hf_token or os.environ.get(...) or os.environ.get(...)] *)
Definition resolve_token (environ : gmap string string)
    (hf_token : option string) : option string :=
  py_or (py_or hf_token (environ !! "HUGGINGFACE_TOKEN")) (environ !! "HF_TOKEN").

Definition not_installed_error : string :=
  "pyannote.audio not installed. Run: pip install pyannote.audio torch".

Definition token_required_error : string :=
  "HuggingFace token required. Set HUGGINGFACE_TOKEN environment variable.".

Section WithWorld.
Variable W : World R.

(** The body of the second [try]. *)
Definition engine_body (audio_path token : string) : M (Event R) (Result R) :=
  call (EvFromPretrained "pyannote/speaker-diarization-3.1" token)
       (from_pretrained W "pyannote/speaker-diarization-3.1" token) ;!
  cuda ←! call EvCudaIsAvailable (cuda_is_available W) ;
  (if cuda : bool then call (EvPipelineTo "cuda") (pipeline_to W "cuda")
   else ret ()) ;!
  tracks ←! call (EvPipelineCall audio_path) (pipeline_call W audio_path) ;
  ret (process_results tracks).

Definition pyannote_diarization (audio_path : string)
    (hf_token : option string) : M (Event R) (Result R) :=
  imported ←!
    try_except
      (call (EvImport "pyannote.audio") (import_pyannote W) ;!
       call (EvImport "torch") (import_torch W) ;!
       ret None)
      isinstance_ImportError
      (λ _, ret (Some (Failure not_installed_error))) ;
  match imported with
  | Some early => ret early
  | None =>
      let token := resolve_token (environ W) hf_token in
      match token with
      | Some tok =>
          if truthy token then
            try_except (engine_body audio_path tok) isinstance_Exception
              (λ e, ret (Failure (py_str e)))
          else ret (Failure token_required_error)
      | None => ret (Failure token_required_error)
      end
  end.

Definition print (doc : Result R) : M (Event R) unit :=
  call (EvPrint doc) (Ret ()).

Definition main (args : Args) : M (Event R) unit :=
  if negb (path_exists W (audio_path args)) then
    print (Failure ("Audio file not found: " +:+ audio_path args)) ;!
    sys_exit 1
  else
    result ←! (if simple args then ret (simple_diarization (audio_path args))
               else pyannote_diarization (audio_path args) (token args)) ;
    print result ;!
    sys_exit (if success result then 0 else 1)%Z.
End WithWorld.
End Script.

End speaker_diarize.

(** ** pathlib on POSIX *)

(** [s.split("/")] *)
Fixpoint split_slash (s : string) : list string :=
  match s with
  | EmptyString => [""]
  | String c s' =>
      if Stdlib.Strings.Ascii.eqb c "/"%char then "" :: split_slash s'
      else match split_slash s' with
           | x :: rest => String c x :: rest
           | [] => [String c ""]
           end
  end.

(** [s.lstrip("/")] *)
Fixpoint lstrip_slash (s : string) : string :=
  match s with
  | String c s' => if Stdlib.Strings.Ascii.eqb c "/"%char then lstrip_slash s' else s
  | EmptyString => s
  end.

(** [str(Path(s))] for a [PosixPath]: the root is kept (exactly two leading
    slashes stay two, any other number becomes one), empty components and
    ["."] components are dropped, the rest is joined by single slashes, and
    the empty path prints as ["."]. *)
Definition Path (s : string) : string :=
  let stripped := lstrip_slash s in
  let leading := String.length s - String.length stripped in
  let root := if Nat.eqb leading 0 then ""
              else if Nat.eqb leading 2 then "//" else "/" in
  let parts :=
    List.filter (λ x, negb (String.eqb x "") && negb (String.eqb x "."))
                (split_slash stripped) in
  let shown := root +:+ String.concat "/" parts in
  if String.eqb shown "" then "." else shown.

(** ** whisper_transcribe.py *)

Module whisper_transcribe.

(** The scalar values an engine dictionary holds. *)
Inductive Value :=
| VNone
| VBool (b : bool)
| VInt (n : Z)
| VFloat (x : Q)
| VStr (s : string).

(** A segment dictionary of the engine: its scalar entries, and its
    ["words"] entry (a list of word dictionaries) when the key is there. *)
Record EngineSegment := {
  es_fields : gmap string Value;
  es_words : option (list (gmap string Value));
}.

(** The dictionary [model.transcribe] returns: its scalar entries, and
    its ["segments"] entry when the key is there.  The types cover the
    answers in which ["segments"] and ["words"] are lists of
    dictionaries; the keys ["segments"] and ["words"] themselves belong
    to [er_segments] and [es_words], not to the scalar entries
    ([whisper_runs.shaped]). *)
Record EngineResult := {
  er_fields : gmap string Value;
  er_segments : option (list EngineSegment);
}.

Record SegmentData := { sd_start : Value; sd_end : Value; sd_text : Value }.
Record WordData := { wd_word : Value; wd_start : Value; wd_end : Value }.

Inductive Result :=
| Success (text language : Value) (segments : list SegmentData)
          (words : list WordData)
| Failure (error : string).

(** [result.get("success", False)] *)
Definition success (r : Result) : bool :=
  match r with
  | Success _ _ _ _ => true
  | Failure _ => false
  end.

(** The keyword arguments of [model.transcribe]. *)
Record Options := {
  word_timestamps : bool;
  verbose : bool;
  language : option string;
}.

Inductive Event :=
| EvImport (module : string)
| EvLoadModel (model_name : string)
| EvTranscribe (model_name audio : string) (options : Options)
| EvPrint (doc : Result).

(** [path_exists] is the answer of [Path(...).exists()] in the runs where
    it answers; the call is outside any [try], and a run in which it
    raises [OSError] (a name too long, a directory that cannot be
    searched) is not described. *)
Record World := {
  import_whisper : Outcome unit;
  path_exists : string → bool;
  load_model : string → Outcome unit;
  transcribe : string → string → Options → Outcome EngineResult;
}.

(** The namespace [parser.parse_args()] returned; a usage error or
    [--help] ends the run inside that call. *)
Record Args := {
  audio_path : string;
  model : string;
  arg_language : option string;
}.

(** [d[key]] *)
Definition getitem (d : gmap string Value) (key : string) : M Event Value :=
  match d !! key with
  | Some v => ret v
  | None => raise (KeyError key)
  end.

(** [for x in xs: acc = body acc x] *)
Fixpoint for_each {A S} (xs : list A) (body : S → A → M Event S) (acc : S)
    : M Event S :=
  match xs with
  | [] => ret acc
  | x :: xs' => acc' ←! body acc x ; for_each xs' body acc'
  end.

(** The [options] dictionary. *)
Definition build_options (language : option string) : Options :=
  let options := {| word_timestamps := true; verbose := false;
                    language := None |} in
  if truthy language && negb (bool_decide (language = Some "auto")) then
    {| word_timestamps := word_timestamps options;
       verbose := verbose options;
       language := language |}
  else options.

(** The innermost loop body: one word of one segment. *)
Definition append_word (words : list WordData) (word : gmap string Value)
    : M Event (list WordData) :=
  w ←! getitem word "word" ;
  s ←! getitem word "start" ;
  e ←! getitem word "end" ;
  ret (words ++ [ {| wd_word := w; wd_start := s; wd_end := e |} ]).

(** The outer loop body; the accumulator is
    [(formatted_result["segments"], formatted_result["words"])]. *)
Definition append_segment (acc : list SegmentData * list WordData)
    (segment : EngineSegment) : M Event (list SegmentData * list WordData) :=
  s ←! getitem (es_fields segment) "start" ;
  e ←! getitem (es_fields segment) "end" ;
  t ←! getitem (es_fields segment) "text" ;
  let segments := acc.1 ++ [ {| sd_start := s; sd_end := e; sd_text := t |} ] in
  match es_words segment with
  | Some ws => words ←! for_each ws append_word acc.2 ; ret (segments, words)
  | None => ret (segments, acc.2)
  end.

(** From [formatted_result = {...}] to [return formatted_result]. *)
Definition format_result (result : EngineResult) : M Event Result :=
  text ←! getitem (er_fields result) "text" ;
  let language := default (VStr "unknown") (er_fields result !! "language") in
  acc ←! match er_segments result with
         | Some segs => for_each segs append_segment ([], [])
         | None => ret ([], [])
         end ;
  ret (Success text language acc.1 acc.2).

Section WithWorld.
Variable W : World.

(** The body of the [try] in [transcribe_audio]. *)
Definition engine_body (audio_path model_name : string)
    (language : option string) : M Event Result :=
  call (EvLoadModel model_name) (load_model W model_name) ;!
  let options := build_options language in
  result ←! call (EvTranscribe model_name audio_path options)
                 (transcribe W model_name audio_path options) ;
  format_result result.

Definition transcribe_audio (audio_path model_name : string)
    (language : option string) : M Event Result :=
  try_except (engine_body audio_path model_name language)
    isinstance_Exception
    (λ e, ret (Failure (py_str e))).

Definition print (doc : Result) : M Event unit :=
  call (EvPrint doc) (Ret ()).

Definition main (args : Args) : M Event unit :=
  let path := Path (audio_path args) in
  if negb (path_exists W path) then
    print (Failure ("Audio file not found: " +:+ path)) ;!
    sys_exit 1
  else
    result ←! transcribe_audio (audio_path args) (model args)
                               (arg_language args) ;
    print result ;!
    if negb (success result) then sys_exit 1 else ret ().

Definition not_installed_error : string :=
  "Whisper not installed. Run: pip install openai-whisper".

(** The whole script: the guarded import at module level, then
    [main()]. *)
Definition script (args : Args) : M Event unit :=
  try_except (call (EvImport "whisper") (import_whisper W))
    isinstance_ImportError
    (λ _, print (Failure not_installed_error) ;! sys_exit 1) ;!
  main args.
End WithWorld.

End whisper_transcribe.

(** ** Vocabulary of the specification *)

(** [sub in s]: [sub] occurs in [s] as a contiguous substring. *)
Fixpoint contains (sub s : string) : bool :=
  String.prefix sub s ||
  match s with
  | String _ s' => contains sub s'
  | EmptyString => false
  end.

(** The distinct labels of a sequence, in order of first appearance. *)
Fixpoint first_labels (labels : list string) : list string :=
  match labels with
  | [] => []
  | x :: rest => x :: filter (λ y, y ≠ x) (first_labels rest)
  end.

Section DiarizationVocabulary.
Import speaker_diarize.
Context {R : Type} `{PyFloat R}.

(** [turn.end - turn.start] of a track. *)
Definition duration (track : Turn R * string) : R :=
  fsub (t_end track.1) (t_start track.1).

(** The segment the loop appends for a track, given the id of each
    label. *)
Definition segment_of (mapping : gmap string nat) (track : Turn R * string)
    : Segment R :=
  {| seg_start := fround 3 (t_start track.1);
     seg_end := fround 3 (t_end track.1);
     seg_speaker := speaker_name (mapping !!! track.2);
     seg_speakerId := mapping !!! track.2 |}.

(** The sum, in turn order and starting from 0, of the lengths of the
    engine's turns whose label has the id [speaker_id]. *)
Definition label_total (mapping : gmap string nat) (speaker_id : nat)
    (tracks : list (Turn R * string)) : R :=
  foldl fadd fzero
    (duration <$> filter (λ track, mapping !! track.2 = Some speaker_id) tracks).

(** The sum of [end - start] over the entries of [segments] that carry
    the id [speaker_id], as the specification words it. *)
Definition segments_duration (speaker_id : nat) (segs : list (Segment R)) : R :=
  foldl fadd fzero
    ((λ s, fsub (seg_end s) (seg_start s))
       <$> filter (λ s, seg_speakerId s = speaker_id) segs).

(** What the loop maintains after the tracks [tracks]. *)
Record loop_invariant (tracks : list (Turn R * string)) (st : LoopState R)
    : Prop := {
  inv_counter :
    speaker_counter st = S (length (first_labels tracks.*2));
  inv_mapping : ∀ label i,
    speaker_mapping st !! label = Some (S i)
    ↔ first_labels tracks.*2 !! i = Some label;
  inv_mapping_pos : ∀ label, speaker_mapping st !! label ≠ Some 0;
  inv_times_keys :
    (speaker_times st).*1 = seq 1 (length (first_labels tracks.*2));
  inv_times : ∀ speaker_id,
    speaker_id ∈ (speaker_times st).*1 →
    dict_get speaker_id (speaker_times st)
    = Some (label_total (speaker_mapping st) speaker_id tracks);
  inv_segments :
    segments st = segment_of (speaker_mapping st) <$> tracks;
}.
End DiarizationVocabulary.

(** ** Vocabulary of the error-handling claims *)

Module diarize_engine.
Import speaker_diarize.

Definition checkpoint : string := "pyannote/speaker-diarization-3.1".

(** The documents a log shows on standard output, in order. *)
Definition printed {R} (tr : list (Event R)) : list (Result R) :=
  omap (λ ev, match ev with EvPrint doc => Some doc | _ => None end) tr.

(** The exception [e] is raised by one of the engine calls of the engine
    path: loading the pipeline, asking for the device, moving the
    pipeline, or running it over the audio. *)
Inductive raises {R} (W : World R) (audio_path token : string) (e : PyExc)
    : Prop :=
| raises_from_pretrained :
    from_pretrained W checkpoint token = Raise e →
    raises W audio_path token e
| raises_cuda_is_available :
    from_pretrained W checkpoint token = Ret () →
    cuda_is_available W = Raise e →
    raises W audio_path token e
| raises_pipeline_to :
    from_pretrained W checkpoint token = Ret () →
    cuda_is_available W = Ret true →
    pipeline_to W "cuda" = Raise e →
    raises W audio_path token e
| raises_pipeline_call_cpu :
    from_pretrained W checkpoint token = Ret () →
    cuda_is_available W = Ret false →
    pipeline_call W audio_path = Raise e →
    raises W audio_path token e
| raises_pipeline_call_gpu :
    from_pretrained W checkpoint token = Ret () →
    cuda_is_available W = Ret true →
    pipeline_to W "cuda" = Ret () →
    pipeline_call W audio_path = Raise e →
    raises W audio_path token e.

(** Every engine call succeeds and the engine yields [tracks]. *)
Definition yields {R} (W : World R) (audio_path token : string)
    (tracks : list (Turn R * string)) : Prop :=
  from_pretrained W checkpoint token = Ret ()
  ∧ (cuda_is_available W = Ret false
     ∨ (cuda_is_available W = Ret true ∧ pipeline_to W "cuda" = Ret ()))
  ∧ pipeline_call W audio_path = Ret tracks.

(** The sum, in turn order and starting from 0, of the unrounded lengths
    of the engine's turns whose entry in [segs] carries [speaker_id]. *)
Definition turns_duration {R} `{PyFloat R} (speaker_id : nat)
    (tracks : list (Turn R * string)) (segs : list (Segment R)) : R :=
  foldl fadd fzero
    ((λ p, duration p.1)
       <$> filter (λ p, seg_speakerId p.2 = speaker_id) (zip tracks segs)).

(** A world whose engine is installed and yields [tracks] for every
    file; only ["a.wav"] exists, and the token comes from [HF_TOKEN]. *)
Definition world_yielding {R} (tracks : list (Turn R * string)) : World R :=
  {| path_exists p := String.eqb p "a.wav";
     environ := {[ "HF_TOKEN" := "hf_secret" ]};
     import_pyannote := Ret ();
     import_torch := Ret ();
     from_pretrained _ _ := Ret ();
     cuda_is_available := Ret false;
     pipeline_to _ := Ret ();
     pipeline_call _ := Ret tracks |}.

(** The same world, except that loading the pipeline raises [e]. *)
Definition world_load_raising {R} (e : PyExc) : World R :=
  {| path_exists p := String.eqb p "a.wav";
     environ := {[ "HF_TOKEN" := "hf_secret" ]};
     import_pyannote := Ret ();
     import_torch := Ret ();
     from_pretrained _ _ := Raise e;
     cuda_is_available := Ret false;
     pipeline_to _ := Ret ();
     pipeline_call _ := Ret [] |}.

(** A world without pyannote. *)
Definition world_not_installed {R} (environ : gmap string string) : World R :=
  {| path_exists p := String.eqb p "a.wav";
     environ := environ;
     import_pyannote := Raise (ImportError "No module named 'pyannote'");
     import_torch := Ret ();
     from_pretrained _ _ := Ret ();
     cuda_is_available := Ret false;
     pipeline_to _ := Ret ();
     pipeline_call _ := Ret [] |}.

Definition engine_args (audio_path : string) (token : option string) : Args :=
  {| audio_path := audio_path; token := token; simple := false |}.

(** The same world with another environment, the same command line with
    another [--token]. *)
Definition with_environ {R} (W : World R) (environ' : gmap string string)
    : World R :=
  {| path_exists := path_exists W;
     environ := environ';
     import_pyannote := import_pyannote W;
     import_torch := import_torch W;
     from_pretrained := from_pretrained W;
     cuda_is_available := cuda_is_available W;
     pipeline_to := pipeline_to W;
     pipeline_call := pipeline_call W |}.

Definition with_token (args : Args) (token' : option string) : Args :=
  {| audio_path := audio_path args; token := token'; simple := simple args |}.
End diarize_engine.

Module whisper_engine.
Import whisper_transcribe.

Definition printed (tr : list Event) : list Result :=
  omap (λ ev, match ev with EvPrint doc => Some doc | _ => None end) tr.

(** The exception [e] is raised by one of the engine calls of
    [transcribe_audio]: loading the model or transcribing. *)
Inductive raises (W : World) (audio_path model_name : string)
    (language : option string) (e : PyExc) : Prop :=
| raises_load_model :
    load_model W model_name = Raise e →
    raises W audio_path model_name language e
| raises_transcribe :
    load_model W model_name = Ret () →
    transcribe W model_name audio_path (build_options language) = Raise e →
    raises W audio_path model_name language e.

(** An engine word dictionary with the three entries the script reads. *)
Definition has_word (d : gmap string Value) (w s e : Value) : Prop :=
  d !! "word" = Some w ∧ d !! "start" = Some s ∧ d !! "end" = Some e.

(** An engine segment dictionary with the three scalar entries the
    script reads. *)
Definition has_segment (d : gmap string Value) (s e t : Value) : Prop :=
  d !! "start" = Some s ∧ d !! "end" = Some e ∧ d !! "text" = Some t.

Definition example_word (w : string) (s e : Q) : gmap string Value :=
  {[ "word" := VStr w; "start" := VFloat s; "end" := VFloat e;
     "probability" := VFloat (9 # 10) ]}.

Definition example_result : EngineResult :=
  {| er_fields := {[ "text" := VStr " hi you there now";
                     "language" := VStr "en" ]};
     er_segments := Some
       [ {| es_fields := {[ "id" := VInt 0; "start" := VFloat 0;
                            "end" := VFloat 1; "text" := VStr " hi you";
                            "avg_logprob" := VFloat (-(1 # 4)) ]};
            es_words := Some [ example_word " hi" 0 (1 # 2);
                               example_word " you" (1 # 2) 1 ] |};
         {| es_fields := {[ "id" := VInt 1; "start" := VFloat 1;
                            "end" := VFloat 2; "text" := VStr " there now";
                            "avg_logprob" := VFloat (-(1 # 5)) ]};
            es_words := Some [ example_word " there" 1 (3 # 2);
                               example_word " now" (3 # 2) 2 ] |} ] |}.

(** A world with whisper installed in which only ["a.wav"] exists and
    the engine answers [answer] to every transcription. *)
Definition world_answering (answer : Outcome EngineResult) : World :=
  {| import_whisper := Ret ();
     path_exists p := String.eqb p "a.wav";
     load_model _ := Ret ();
     transcribe _ _ _ := answer |}.

(** The same file system without whisper. *)
Definition world_not_installed : World :=
  {| import_whisper := Raise (ImportError "No module named 'whisper'");
     path_exists p := String.eqb p "a.wav";
     load_model _ := Ret ();
     transcribe _ _ _ := Ret example_result |}.

(** A world with whisper installed whose model fails to load with [e]. *)
Definition world_load_raising (e : PyExc) : World :=
  {| import_whisper := Ret ();
     path_exists p := String.eqb p "a.wav";
     load_model _ := Raise e;
     transcribe _ _ _ := Ret example_result |}.

Definition small_args (audio_path : string) (language : option string) : Args :=
  {| audio_path := audio_path; model := "small"; arg_language := language |}.
End whisper_engine.

(** ** check_pyannote.py *)

Module check_pyannote.

Inductive Event :=
| EvImport (module : string)
| EvPrint (line : string).

Definition print (line : string) : M Event unit :=
  call (EvPrint line) (Ret ()).

(** The whole script, given what [from pyannote.audio import Pipeline]
    answers.  [exit] raises [SystemExit] like [sys.exit]; the [exit(0)] is
    inside the [try], whose handler names [ImportError] only. *)
Definition script (import_pyannote : Outcome unit) : M Event unit :=
  try_except
    (call (EvImport "pyannote.audio") import_pyannote ;!
     print "pyannote available" ;!
     sys_exit 0)
    isinstance_ImportError
    (λ _, print "pyannote not available" ;! sys_exit 1).

(** The lines a log shows on standard output. *)
Definition printed (tr : list Event) : list string :=
  omap (λ ev, match ev with EvPrint line => Some line | _ => None end) tr.

End check_pyannote.

(** ** Vocabulary of the whole-run properties *)

(** An answer that [except Exception] handles: a value, or an exception
    that is an instance of [Exception]. *)
Definition catchable {A} (answer : Outcome A) : Prop :=
  match answer with
  | Ret _ => True
  | Raise e => isinstance_Exception e = true
  end.

(** An import that succeeds or fails the way the scripts expect, with
    [ImportError]. *)
Definition import_answer (answer : Outcome unit) : Prop :=
  match answer with
  | Ret _ => True
  | Raise e => isinstance_ImportError e = true
  end.

Module diarize_runs.
Import speaker_diarize.

(** Imports fail with [ImportError] if at all, and no engine call raises
    outside [Exception]. *)
Definition well_behaved {R} (W : World R) : Prop :=
  import_answer (import_pyannote W)
  ∧ import_answer (import_torch W)
  ∧ (∀ checkpoint token, catchable (from_pretrained W checkpoint token))
  ∧ catchable (cuda_is_available W)
  ∧ (∀ device, catchable (pipeline_to W device))
  ∧ (∀ audio_path, catchable (pipeline_call W audio_path)).

(** The same turns under other label names. *)
Definition rename_labels {R} (f : string → string)
    (tracks : list (Turn R * string)) : list (Turn R * string) :=
  (λ track, (track.1, f track.2)) <$> tracks.

(** The two loops run in step: same output so far, and the renamed label
    has the id of the original one. *)
Definition in_step {R} (f : string → string) (st st' : LoopState R) : Prop :=
  segments st' = segments st
  ∧ speaker_times st' = speaker_times st
  ∧ speaker_counter st' = speaker_counter st
  ∧ ∀ label, speaker_mapping st' !! f label = speaker_mapping st !! label.

(** A world with pyannote but without torch. *)
Definition world_without_torch {R} : World R :=
  {| path_exists p := String.eqb p "a.wav";
     environ := {[ "HF_TOKEN" := "hf_secret" ]};
     import_pyannote := Ret ();
     import_torch := Raise (ImportError "No module named 'torch'");
     from_pretrained _ _ := Ret ();
     cuda_is_available := Ret false;
     pipeline_to _ := Ret ();
     pipeline_call _ := Ret [] |}.

(** A world with a GPU in which the engine yields [tracks]. *)
Definition world_with_cuda {R} (tracks : list (Turn R * string)) : World R :=
  {| path_exists p := String.eqb p "a.wav";
     environ := {[ "HUGGINGFACE_TOKEN" := "hf_secret" ]};
     import_pyannote := Ret ();
     import_torch := Ret ();
     from_pretrained _ _ := Ret ();
     cuda_is_available := Ret true;
     pipeline_to _ := Ret ();
     pipeline_call _ := Ret tracks |}.
End diarize_runs.

Module whisper_runs.
Import whisper_transcribe.

Definition well_behaved (W : World) : Prop :=
  import_answer (import_whisper W)
  ∧ (∀ model_name, catchable (load_model W model_name))
  ∧ (∀ model_name audio options,
       catchable (transcribe W model_name audio options)).

(** The keys the reshaping indexes without testing for them. *)
Definition required_keys : list string := ["text"; "start"; "end"; "word"].

(** An outcome of the reshaping: a value, or the [KeyError] of one of the
    required keys. *)
Definition value_or_missing_key {A} (outcome : Outcome A) : Prop :=
  match outcome with
  | Ret _ => True
  | Raise e => ∃ key, e = KeyError key ∧ key ∈ required_keys
  end.

(** An engine word and the entry made of it. *)
Definition word_entry (d : gmap string Value) (wd : WordData) : Prop :=
  whisper_engine.has_word d (wd_word wd) (wd_start wd) (wd_end wd).

(** An engine segment and the entry made of it. *)
Definition segment_entry (segment : EngineSegment) (sd : SegmentData) : Prop :=
  whisper_engine.has_segment (es_fields segment)
    (sd_start sd) (sd_end sd) (sd_text sd).

(** An engine segment and the entries made of its words; a segment without
    a ["words"] key has none. *)
Definition segment_words (segment : EngineSegment) (wds : list WordData)
    : Prop :=
  Forall2 word_entry (default [] (es_words segment)) wds.

(** A word dictionary has no entry for [key], one of the three keys the
    script reads from it. *)
Definition word_lacks (d : gmap string Value) (key : string) : Prop :=
  key ∈ ["word"; "start"; "end"] ∧ d !! key = None.

(** A segment has no entry for one of the three keys the script reads
    from it, or one of its words lacks a key. *)
Definition segment_lacks (segment : EngineSegment) (key : string) : Prop :=
  (key ∈ ["start"; "end"; "text"] ∧ es_fields segment !! key = None)
  ∨ ∃ d, d ∈ default [] (es_words segment) ∧ word_lacks d key.

(** Somewhere in the engine's answer a dictionary has no entry for [key],
    which the script reads from it. *)
Definition lacks (result : EngineResult) (key : string) : Prop :=
  (key = "text" ∧ er_fields result !! "text" = None)
  ∨ ∃ segment, segment ∈ default [] (er_segments result)
               ∧ segment_lacks segment key.

(** The record stands for one Python dictionary of the documented shape:
    the list-valued entries (["segments"], ["words"]) are those of
    [er_segments] and [es_words], and are not repeated among the scalar
    entries. *)
Definition shaped (result : EngineResult) : Prop :=
  er_fields result !! "segments" = None
  ∧ Forall (λ segment, es_fields segment !! "words" = None)
      (default [] (er_segments result)).
End whisper_runs.

(** ** Proof automation *)

(** Expose the log-passing behind the monad's operations. *)
Ltac unfold_monad :=
  unfold run, try_except, bind, call, ret, raise, sys_exit in *.

(** Read a membership in an explicit log. *)
Ltac in_log H :=
  simpl in H;
  repeat (apply elem_of_cons in H as [H|H];
          [try discriminate H; try (injection H as); subst|]);
  try (by apply elem_of_nil in H).

(** Split a statement about a log and read each membership. *)
Ltac read_log :=
  repeat split; intros;
  match goal with Hin : _ ∈ _ |- _ => in_log Hin end.

(* ===================================================================== *)
(** * Part II: theorems                                                   *)
(* ===================================================================== *)

(** ** Dictionaries *)

Section DictFacts.
Context {V : Type}.
Implicit Types (d : list (nat * V)) (k : nat) (v : V).

Lemma dict_get_None d k : dict_get k d = None ↔ k ∉ d.*1.
Proof.
  induction d as [|[k' v'] d IH]; simpl.
  - split; [intros _; apply not_elem_of_nil | done].
  - destruct (Nat.eqb_spec k k') as [->|Hne].
    + split; [done | intros Hn; destruct Hn; left].
    + rewrite IH, not_elem_of_cons. tauto.
Qed.

Lemma dict_mem_true d k : dict_mem k d = true ↔ k ∈ d.*1.
Proof.
  unfold dict_mem. destruct (dict_get k d) eqn:E.
  - split; [intros _ | done].
    destruct (decide (k ∈ d.*1)) as [|Hn]; [done|].
    apply dict_get_None in Hn. congruence.
  - apply dict_get_None in E. split; [done | intros; contradiction].
Qed.

Lemma dict_get_set_eq d k v : dict_get k (dict_set k v d) = Some v.
Proof.
  induction d as [|[k' v'] d IH]; simpl.
  - by rewrite Nat.eqb_refl.
  - destruct (Nat.eqb_spec k k') as [->|Hne]; simpl.
    + by rewrite Nat.eqb_refl.
    + destruct (Nat.eqb_spec k k'); [done | apply IH].
Qed.

Lemma dict_get_set_ne d k k' v :
  k ≠ k' → dict_get k' (dict_set k v d) = dict_get k' d.
Proof.
  intros Hne. induction d as [|[k0 v0] d IH]; simpl.
  - destruct (Nat.eqb_spec k' k); [congruence | done].
  - destruct (Nat.eqb_spec k k0) as [->|Hne0]; simpl.
    + destruct (Nat.eqb_spec k' k0); [congruence | done].
    + destruct (Nat.eqb_spec k' k0); [done | apply IH].
Qed.

Lemma dict_set_keys_old d k v : k ∈ d.*1 → (dict_set k v d).*1 = d.*1.
Proof.
  induction d as [|[k' v'] d IH]; simpl.
  - intros Hin. by apply elem_of_nil in Hin.
  - intros Hin. destruct (Nat.eqb_spec k k') as [->|Hne]; simpl; [done|].
    f_equal. apply IH. apply elem_of_cons in Hin as [?|?]; [done | done].
Qed.

Lemma dict_set_keys_new d k v : k ∉ d.*1 → (dict_set k v d).*1 = d.*1 ++ [k].
Proof.
  induction d as [|[k' v'] d IH]; simpl; [done|].
  intros Hn. apply not_elem_of_cons in Hn as [Hne Hn].
  destruct (Nat.eqb_spec k k'); [done|]. simpl. f_equal. by apply IH.
Qed.

(** A dictionary whose keys were inserted in increasing order is left as
    it is by [sorted(d.items())]. *)
Lemma sorted_items_seq d a n : d.*1 = seq a n → sorted_items d = d.
Proof.
  revert a d. induction n as [|n IH]; intros a d Hk.
  - by destruct d.
  - destruct d as [|[k v] d]; [done|]. simpl in Hk.
    injection Hk as -> Hk. unfold sorted_items in *. simpl.
    rewrite (IH _ _ Hk). destruct d as [|[k' v'] d]; [done|].
    destruct n as [|n']; [done|]. injection Hk as -> _. simpl.
    destruct (Nat.leb_spec a (S a)); [done | lia].
Qed.
End DictFacts.

(** ** Labels in order of first appearance *)

Lemma first_labels_elem (l : list string) x : x ∈ first_labels l ↔ x ∈ l.
Proof.
  induction l as [|y l IH]; simpl; [done|].
  rewrite !elem_of_cons, list_elem_of_filter, IH.
  destruct (decide (x = y)); naive_solver.
Qed.

Lemma first_labels_NoDup (l : list string) : NoDup (first_labels l).
Proof.
  induction l as [|y l IH]; simpl; [constructor|].
  constructor.
  - rewrite list_elem_of_filter. naive_solver.
  - by apply NoDup_filter.
Qed.

Lemma first_labels_snoc (l : list string) x :
  first_labels (l ++ [x])
  = if decide (x ∈ l) then first_labels l else first_labels l ++ [x].
Proof.
  induction l as [|y l IH].
  - simpl. destruct (decide (x ∈ [])) as [Hin|_]; [|done].
    by apply elem_of_nil in Hin.
  - change (first_labels ((y :: l) ++ [x]))
      with (y :: filter (λ z, z ≠ y) (first_labels (l ++ [x]))).
    rewrite IH. simpl first_labels.
    destruct (decide (x ∈ l)) as [Hin|Hin];
      destruct (decide (x ∈ y :: l)) as [Hin'|Hin']; try done.
    + destruct Hin'. by right.
    + apply elem_of_cons in Hin' as [->|?]; [|done].
      rewrite filter_app, filter_cons_False, filter_nil, app_nil_r; [done|].
      intros Hc. by apply Hc.
    + apply not_elem_of_cons in Hin' as [Hne _].
      by rewrite filter_app, filter_cons_True, filter_nil.
Qed.

(** ** The loop over the tracks *)

Section LoopFacts.
Import speaker_diarize.
Context {R : Type} `{PyFloat R}.
Implicit Types (tracks : list (Turn R * string)) (st : LoopState R)
  (m : gmap string nat).

Lemma labels_snoc tracks turn label :
  (tracks ++ [(turn, label)]).*2 = tracks.*2 ++ [label].
Proof. by rewrite fmap_app. Qed.

Lemma label_total_ext m m' speaker_id tracks :
  (∀ track, track ∈ tracks →
     m !! track.2 = Some speaker_id ↔ m' !! track.2 = Some speaker_id) →
  label_total m speaker_id tracks = label_total m' speaker_id tracks.
Proof.
  intros Hext. unfold label_total. f_equal. f_equal.
  induction tracks as [|track tracks IH]; [done|].
  rewrite !filter_cons.
  rewrite IH by (intros; apply Hext; by right).
  pose proof (Hext track (list_elem_of_here _ _)) as Hiff.
  destruct (decide (m !! track.2 = Some speaker_id)) as [Hm|Hm];
    destruct (decide (m' !! track.2 = Some speaker_id)) as [Hm'|Hm'];
    tauto.
Qed.

Lemma label_total_snoc_eq m speaker_id tracks track :
  m !! track.2 = Some speaker_id →
  label_total m speaker_id (tracks ++ [track])
  = fadd (label_total m speaker_id tracks) (duration track).
Proof.
  intros Hm. unfold label_total.
  rewrite filter_app, filter_cons_True by done.
  by rewrite filter_nil, fmap_app, foldl_app.
Qed.

Lemma label_total_snoc_ne m speaker_id tracks track :
  m !! track.2 ≠ Some speaker_id →
  label_total m speaker_id (tracks ++ [track])
  = label_total m speaker_id tracks.
Proof.
  intros Hm. unfold label_total.
  rewrite filter_app, filter_cons_False by done.
  by rewrite filter_nil, app_nil_r.
Qed.

Lemma label_total_unused m speaker_id tracks :
  (∀ track, track ∈ tracks → m !! track.2 ≠ Some speaker_id) →
  label_total m speaker_id tracks = fzero.
Proof.
  intros Hno. unfold label_total.
  induction tracks as [|track tracks IH]; [done|].
  rewrite filter_cons_False by (apply Hno; left).
  apply IH. intros; apply Hno; by right.
Qed.

(** What the invariant says about labels seen and not yet seen. *)
Lemma invariant_lookup_seen tracks st label :
  loop_invariant tracks st → label ∈ tracks.*2 →
  ∃ i, speaker_mapping st !! label = Some (S i)
       ∧ i < length (first_labels tracks.*2).
Proof.
  intros Hinv Hin. apply first_labels_elem, list_elem_of_lookup_1 in Hin as [i Hi].
  exists i. split; [by apply Hinv | by eapply lookup_lt_Some].
Qed.

Lemma invariant_lookup_bound tracks st label n :
  loop_invariant tracks st → speaker_mapping st !! label = Some n →
  1 ≤ n ≤ length (first_labels tracks.*2) ∧ label ∈ tracks.*2.
Proof.
  intros Hinv Hn. destruct n as [|i]; [by apply Hinv in Hn|].
  apply Hinv in Hn. split.
  - apply lookup_lt_Some in Hn. lia.
  - by eapply first_labels_elem, list_elem_of_lookup_2.
Qed.

Lemma loop_invariant_init : loop_invariant [] loop_init.
Proof.
  split; simpl; try done.
  intros speaker_id Hin. by apply elem_of_nil in Hin.
Qed.

(** An iteration for a label that already has an id. *)
Lemma loop_body_seen tracks st turn label speaker_id :
  loop_invariant tracks st →
  speaker_mapping st !! label = Some speaker_id →
  loop_invariant (tracks ++ [(turn, label)]) (loop_body st (turn, label)).
Proof.
  intros Hinv Hm.
  destruct (invariant_lookup_bound _ _ _ _ Hinv Hm) as [Hbound Hseen].
  assert (Hkey : speaker_id ∈ (speaker_times st).*1)
    by (rewrite (inv_times_keys _ _ Hinv), elem_of_seq; lia).
  unfold loop_body. rewrite Hm.
  rewrite (lookup_total_correct _ _ _ Hm).
  rewrite (proj2 (dict_mem_true _ _) Hkey).
  assert (Hfl : first_labels (tracks ++ [(turn, label)]).*2
                = first_labels tracks.*2)
    by (by rewrite labels_snoc, first_labels_snoc, decide_True).
  split; simpl; rewrite ?Hfl.
  - apply Hinv.
  - apply Hinv.
  - apply Hinv.
  - rewrite dict_set_keys_old by done. apply Hinv.
  - rewrite dict_set_keys_old by done. intros sid Hsid.
    destruct (decide (sid = speaker_id)) as [->|Hne].
    + rewrite dict_get_set_eq, label_total_snoc_eq by done.
      by rewrite (inv_times _ _ Hinv _ Hkey).
    + rewrite dict_get_set_ne, label_total_snoc_ne by (simpl; congruence).
      by apply Hinv.
  - rewrite (inv_segments _ _ Hinv), fmap_app. f_equal.
    unfold segment_of. simpl. by rewrite (lookup_total_correct _ _ _ Hm).
Qed.

(** An iteration for a label met for the first time. *)
Lemma loop_body_fresh tracks st turn label :
  loop_invariant tracks st →
  speaker_mapping st !! label = None →
  loop_invariant (tracks ++ [(turn, label)]) (loop_body st (turn, label)).
Proof.
  intros Hinv Hm.
  set (k := length (first_labels tracks.*2)).
  assert (Hc : speaker_counter st = S k) by apply Hinv.
  assert (Hfresh : label ∉ tracks.*2).
  { intros Hin. destruct (invariant_lookup_seen _ _ _ Hinv Hin) as (i & Hi & _).
    congruence. }
  assert (Hkey : S k ∉ (speaker_times st).*1)
    by (rewrite (inv_times_keys _ _ Hinv), elem_of_seq; lia).
  assert (Hold : ∀ track, track ∈ tracks →
            <[label := S k]> (speaker_mapping st) !! track.2
            = speaker_mapping st !! track.2).
  { intros track Hin. apply lookup_insert_ne. intros ->.
    apply Hfresh. by apply list_elem_of_fmap_2. }
  unfold loop_body. rewrite Hm, Hc. rewrite lookup_total_insert_eq.
  destruct (dict_mem (S k) (speaker_times st)) eqn:Hmem;
    [by apply dict_mem_true in Hmem|].
  rewrite dict_get_set_eq. simpl default.
  assert (Hfl : first_labels (tracks ++ [(turn, label)]).*2
                = first_labels tracks.*2 ++ [label])
    by (by rewrite labels_snoc, first_labels_snoc, decide_False).
  split; simpl; rewrite ?Hfl, ?length_app; simpl; fold k.
  - lia.
  - intros l i. destruct (decide (l = label)) as [->|Hne].
    + rewrite lookup_insert_eq, lookup_snoc_Some. fold k. split.
      * intros [= <-]. by right.
      * intros [[_ Hi]|[-> _]]; [|done].
        exfalso. apply Hfresh.
        by eapply first_labels_elem, list_elem_of_lookup_2.
    + rewrite lookup_insert_ne, lookup_snoc_Some by done.
      rewrite (inv_mapping _ _ Hinv). split.
      * intros Hi. left. split; [by eapply lookup_lt_Some | done].
      * intros [[_ Hi]|[_ ?]]; [done | congruence].
  - intros l. destruct (decide (l = label)) as [->|Hne].
    + by rewrite lookup_insert_eq.
    + rewrite lookup_insert_ne by done. apply Hinv.
  - rewrite dict_set_keys_old, dict_set_keys_new by
      (try done; rewrite dict_set_keys_new by done; set_solver).
    rewrite (inv_times_keys _ _ Hinv). fold k.
    by rewrite Nat.add_1_r, seq_S.
  - rewrite dict_set_keys_old, dict_set_keys_new by
      (try done; rewrite dict_set_keys_new by done; set_solver).
    intros sid Hsid. destruct (decide (sid = S k)) as [->|Hne].
    + rewrite dict_get_set_eq, label_total_snoc_eq
        by (simpl; apply lookup_insert_eq).
      f_equal. f_equal. symmetry. apply label_total_unused.
      intros track Hin. rewrite Hold by done. intros Hs.
      apply (invariant_lookup_bound _ _ _ _ Hinv) in Hs. fold k in Hs. lia.
    + rewrite !dict_get_set_ne by done.
      rewrite label_total_snoc_ne
        by (simpl; rewrite lookup_insert_eq; congruence).
      apply elem_of_app in Hsid as [Hsid|Hsid]; [|set_solver].
      rewrite (inv_times _ _ Hinv _ Hsid). f_equal.
      apply label_total_ext. intros track Hin. by rewrite Hold.
  - rewrite (inv_segments _ _ Hinv), fmap_app. f_equal.
    + apply list_fmap_ext. intros i track Hi. unfold segment_of.
      rewrite !lookup_total_alt, Hold; [done|].
      by eapply list_elem_of_lookup_2.
    + unfold segment_of. simpl. by rewrite lookup_total_insert_eq.
Qed.

Lemma loop_body_invariant tracks st track :
  loop_invariant tracks st →
  loop_invariant (tracks ++ [track]) (loop_body st track).
Proof.
  intros Hinv. destruct track as [turn label].
  destruct (speaker_mapping st !! label) eqn:Hm.
  - by eapply loop_body_seen.
  - by apply loop_body_fresh.
Qed.

Lemma run_loop_invariant tracks : loop_invariant tracks (run_loop tracks).
Proof.
  unfold run_loop. induction tracks as [|track tracks IH] using rev_ind.
  - apply loop_invariant_init.
  - rewrite foldl_snoc. by apply loop_body_invariant.
Qed.
End LoopFacts.

(** ** speaker_diarize.py: the engine path *)

Section DiarizationFacts.
Import speaker_diarize.
Context {R : Type} `{PyFloat R}.
Implicit Types (W : World R) (tracks : list (Turn R * string)).

(** The ids of [speakers] are [1..k], ascending, [k] the number of
    distinct labels. *)
Lemma build_speakers_run_loop tracks :
  build_speakers (speaker_times (run_loop tracks))
  = (λ '(speaker_id, total),
       {| sp_id := speaker_id; sp_name := speaker_name speaker_id;
          sp_total_duration := fround 2 total |})
    <$> speaker_times (run_loop tracks).
Proof.
  unfold build_speakers.
  by rewrite (sorted_items_seq _ _ _ (inv_times_keys _ _ (run_loop_invariant tracks))).
Qed.

Lemma build_speakers_ids tracks :
  sp_id <$> build_speakers (speaker_times (run_loop tracks))
  = seq 1 (length (first_labels tracks.*2)).
Proof.
  rewrite build_speakers_run_loop, <- list_fmap_compose.
  rewrite <- (inv_times_keys _ _ (run_loop_invariant tracks)).
  apply list_fmap_ext. by intros i [k v] _.
Qed.

Lemma process_results_shape tracks :
  process_results tracks
  = Success "pyannote" (length (first_labels tracks.*2))
      (segment_of (speaker_mapping (run_loop tracks)) <$> tracks)
      (build_speakers (speaker_times (run_loop tracks))).
Proof.
  unfold process_results.
  rewrite <- (inv_segments _ _ (run_loop_invariant tracks)).
  f_equal. rewrite <- (length_fmap sp_id), build_speakers_ids. apply length_seq.
Qed.
End DiarizationFacts.

(** C1.  For every sequence of labelled turns the engine yields, the loop
    gives each distinct label the id [1 + its rank in order of first
    appearance] (so the ids are [1..k] without gaps), emits one segment per
    turn in turn order carrying the id of the turn's label, and lists the
    speakers by ascending id.  For turns labelled [A, B, A] of lengths
    [2.0, 1.5, 3.0], [A] gets id 1 and [B] id 2, the speakers are
    [{id 1, total 5.0}; {id 2, total 1.5}] and the three segments carry the
    ids [1, 2, 1]. *)
Theorem diarization_ids_dense_in_first_appearance_order
    {R : Type} `{PyFloat R}
    (tracks : list (speaker_diarize.Turn R * string))
    (A B : string) (t1 t2 t3 : speaker_diarize.Turn Q) :
  A ≠ B →
  fsub (speaker_diarize.t_end t1) (speaker_diarize.t_start t1) = 2%Q →
  fsub (speaker_diarize.t_end t2) (speaker_diarize.t_start t2) = (3 # 2)%Q →
  fsub (speaker_diarize.t_end t3) (speaker_diarize.t_start t3) = 3%Q →
  let st := speaker_diarize.run_loop tracks in
  let labels := first_labels tracks.*2 in
  (∀ label i,
     speaker_diarize.speaker_mapping st !! label = Some (S i)
     ↔ labels !! i = Some label)
  ∧ (∀ label, speaker_diarize.speaker_mapping st !! label ≠ Some 0)
  ∧ (∃ speakers,
       speaker_diarize.process_results tracks
       = speaker_diarize.Success "pyannote" (length labels)
           (segment_of (speaker_diarize.speaker_mapping st) <$> tracks)
           speakers
       ∧ speaker_diarize.sp_id <$> speakers = seq 1 (length labels))
  ∧ speaker_diarize.speaker_mapping
      (speaker_diarize.run_loop [(t1, A); (t2, B); (t3, A)])
    = {[ A := 1; B := 2 ]}
  ∧ speaker_diarize.process_results [(t1, A); (t2, B); (t3, A)]
    = speaker_diarize.Success "pyannote" 2
        [ speaker_diarize.Build_Segment Q
            (fround 3 (speaker_diarize.t_start t1))
            (fround 3 (speaker_diarize.t_end t1)) "Speaker 1" 1;
          speaker_diarize.Build_Segment Q
            (fround 3 (speaker_diarize.t_start t2))
            (fround 3 (speaker_diarize.t_end t2)) "Speaker 2" 2;
          speaker_diarize.Build_Segment Q
            (fround 3 (speaker_diarize.t_start t3))
            (fround 3 (speaker_diarize.t_end t3)) "Speaker 1" 1 ]
        [ speaker_diarize.Build_Speaker Q 1 "Speaker 1" 5%Q;
          speaker_diarize.Build_Speaker Q 2 "Speaker 2" (3 # 2)%Q ].
Proof.
  intros HAB Hd1 Hd2 Hd3 st labels.
  pose proof (run_loop_invariant tracks) as Hinv.
  split; [apply Hinv|]. split; [apply Hinv|]. split.
  { eexists. split; [apply process_results_shape | apply build_speakers_ids]. }
  assert (HBA : B ≠ A) by congruence.
  set (seg1 := speaker_diarize.Build_Segment Q
                 (fround 3 (speaker_diarize.t_start t1))
                 (fround 3 (speaker_diarize.t_end t1)) "Speaker 1" 1).
  set (seg2 := speaker_diarize.Build_Segment Q
                 (fround 3 (speaker_diarize.t_start t2))
                 (fround 3 (speaker_diarize.t_end t2)) "Speaker 2" 2).
  set (seg3 := speaker_diarize.Build_Segment Q
                 (fround 3 (speaker_diarize.t_start t3))
                 (fround 3 (speaker_diarize.t_end t3)) "Speaker 1" 1).
  assert (E1 : speaker_diarize.loop_body speaker_diarize.loop_init (t1, A)
               = speaker_diarize.Build_LoopState Q [seg1]
                   [(1, fadd fzero 2%Q)] (<[A := 1]> ∅) 2).
  { unfold speaker_diarize.loop_body, speaker_diarize.loop_init.
    cbn [speaker_diarize.speaker_mapping speaker_diarize.speaker_counter
         speaker_diarize.speaker_times speaker_diarize.segments].
    rewrite lookup_empty. cbv beta iota zeta.
    rewrite lookup_total_insert_eq, Hd1. reflexivity. }
  assert (E2 : speaker_diarize.loop_body
                 (speaker_diarize.Build_LoopState Q [seg1]
                    [(1, fadd fzero 2%Q)] (<[A := 1]> ∅) 2) (t2, B)
               = speaker_diarize.Build_LoopState Q [seg1; seg2]
                   [(1, fadd fzero 2%Q); (2, fadd fzero (3 # 2)%Q)]
                   (<[B := 2]> (<[A := 1]> ∅)) 3).
  { unfold speaker_diarize.loop_body.
    cbn [speaker_diarize.speaker_mapping speaker_diarize.speaker_counter
         speaker_diarize.speaker_times speaker_diarize.segments].
    rewrite lookup_insert_ne, lookup_empty by done. cbv beta iota zeta.
    rewrite lookup_total_insert_eq, Hd2. reflexivity. }
  assert (E3 : speaker_diarize.loop_body
                 (speaker_diarize.Build_LoopState Q [seg1; seg2]
                    [(1, fadd fzero 2%Q); (2, fadd fzero (3 # 2)%Q)]
                    (<[B := 2]> (<[A := 1]> ∅)) 3) (t3, A)
               = speaker_diarize.Build_LoopState Q [seg1; seg2; seg3]
                   [(1, fadd (fadd fzero 2%Q) 3%Q); (2, fadd fzero (3 # 2)%Q)]
                   (<[B := 2]> (<[A := 1]> ∅)) 3).
  { unfold speaker_diarize.loop_body.
    cbn [speaker_diarize.speaker_mapping speaker_diarize.speaker_counter
         speaker_diarize.speaker_times speaker_diarize.segments].
    rewrite lookup_insert_ne, lookup_insert_eq by done. cbv beta iota zeta.
    rewrite lookup_total_insert_ne, lookup_total_insert_eq, Hd3 by done.
    reflexivity. }
  unfold speaker_diarize.process_results, speaker_diarize.run_loop.
  cbn [foldl]. rewrite E1, E2, E3. split.
  - cbn [speaker_diarize.speaker_mapping]. by rewrite insert_insert_ne.
  - reflexivity.
Qed.

Lemma diarization_ids_dense_in_first_appearance_order_witness :
  let t1 := speaker_diarize.Build_Turn Q 0%Q 2%Q in
  let t2 := speaker_diarize.Build_Turn Q 2%Q (7 # 2)%Q in
  let t3 := speaker_diarize.Build_Turn Q (7 # 2)%Q (13 # 2)%Q in
  ("A" ≠ "B"
   ∧ fsub (speaker_diarize.t_end t1) (speaker_diarize.t_start t1) = 2%Q
   ∧ fsub (speaker_diarize.t_end t2) (speaker_diarize.t_start t2) = (3 # 2)%Q
   ∧ fsub (speaker_diarize.t_end t3) (speaker_diarize.t_start t3) = 3%Q)
  ∧ speaker_diarize.process_results [(t1, "A"); (t2, "B"); (t3, "A")]
    = speaker_diarize.Success "pyannote" 2
        [ speaker_diarize.Build_Segment Q 0%Q 2%Q "Speaker 1" 1;
          speaker_diarize.Build_Segment Q 2%Q (7 # 2)%Q "Speaker 2" 2;
          speaker_diarize.Build_Segment Q (7 # 2)%Q (13 # 2)%Q "Speaker 1" 1 ]
        [ speaker_diarize.Build_Speaker Q 1 "Speaker 1" 5%Q;
          speaker_diarize.Build_Speaker Q 2 "Speaker 2" (3 # 2)%Q ].
Proof.
  intros t1 t2 t3.
  assert (Hne : "A" ≠ "B") by discriminate.
  assert (H1 : fsub (speaker_diarize.t_end t1) (speaker_diarize.t_start t1) = 2%Q)
    by reflexivity.
  assert (H2 : fsub (speaker_diarize.t_end t2) (speaker_diarize.t_start t2) = (3 # 2)%Q)
    by reflexivity.
  assert (H3 : fsub (speaker_diarize.t_end t3) (speaker_diarize.t_start t3) = 3%Q)
    by reflexivity.
  split; [repeat split; assumption|].
  exact (proj2 (proj2 (proj2 (proj2
    (diarization_ids_dense_in_first_appearance_order
       [(t1, "A"); (t2, "B"); (t3, "A")] "A" "B" t1 t2 t3 Hne H1 H2 H3))))).
Defined.

(** ** speaker_diarize.py: the adapter *)

Section DiarizationAdapter.
Import speaker_diarize diarize_engine.
Context {R : Type} `{PyFloat R}.
Implicit Types (W : World R) (args : Args).

Lemma resolve_token_priority (env : gmap string string) (hf : option string) :
  resolve_token env hf
  = if truthy hf then hf
    else if truthy (env !! "HUGGINGFACE_TOKEN") then env !! "HUGGINGFACE_TOKEN"
    else env !! "HF_TOKEN".
Proof.
  unfold resolve_token, py_or.
  destruct (truthy hf) eqn:Hhf; [by rewrite Hhf | reflexivity].
Qed.

Lemma truthy_Some (o : option string) :
  truthy o = true ↔ ∃ s, o = Some s ∧ s ≠ "".
Proof.
  destruct o as [s|]; simpl.
  - destruct (String.eqb_spec s ""); simpl; split; try done.
    + intros (s' & [= <-] & Hne). done.
    + intros _. by exists s.
  - split; [done | by intros (s & ? & _)].
Qed.

(** Past the imports and the token check, the function is its second
    [try]. *)
Lemma pyannote_diarization_engine W path hf tok tr :
  import_pyannote W = Ret () → import_torch W = Ret () →
  resolve_token (environ W) hf = Some tok → tok ≠ "" →
  pyannote_diarization W path hf tr
  = try_except (engine_body W path tok) isinstance_Exception
      (λ e, ret (Failure (py_str e)))
      (tr ++ [EvImport "pyannote.audio"] ++ [EvImport "torch"]).
Proof.
  intros Hp Ht Htok Hne. unfold pyannote_diarization.
  unfold try_except at 1. unfold bind, call, ret. rewrite Hp, Ht, Htok.
  simpl. destruct (String.eqb_spec tok ""); [done|]. simpl.
  by rewrite <- app_assoc.
Qed.

Lemma pyannote_diarization_no_token W path hf tr :
  import_pyannote W = Ret () → import_torch W = Ret () →
  truthy (resolve_token (environ W) hf) = false →
  pyannote_diarization W path hf tr
  = (Ret (Failure token_required_error),
     tr ++ [EvImport "pyannote.audio"] ++ [EvImport "torch"]).
Proof.
  intros Hp Ht Htok. unfold pyannote_diarization.
  unfold_monad. rewrite Hp, Ht. simpl.
  destruct (resolve_token (environ W) hf) as [tok|] eqn:E; simpl in *.
  - rewrite Htok. by rewrite <- app_assoc.
  - by rewrite <- app_assoc.
Qed.

Lemma engine_body_raises W path tok e tr :
  raises W path tok e →
  ∃ evs, engine_body W path tok tr = (Raise e, tr ++ evs).
Proof.
  intros Hr. unfold engine_body. unfold_monad. fold checkpoint.
  destruct Hr as [H1|H1 H2|H1 H2 H3|H1 H2 H3|H1 H2 H3 H4];
    rewrite ?H1, ?H2, ?H3, ?H4; simpl; rewrite <- ?app_assoc; eauto.
Qed.

Lemma engine_body_yields W path tok tracks tr :
  yields W path tok tracks →
  ∃ evs, engine_body W path tok tr = (Ret (process_results tracks), tr ++ evs).
Proof.
  intros (H1 & [H2|[H2 H3]] & H4); unfold engine_body; unfold_monad;
    fold checkpoint; rewrite ?H1, ?H2, ?H3, ?H4; simpl;
    rewrite <- ?app_assoc; eauto.
Qed.

Lemma engine_body_returns_inv W path tok tr r tr' :
  engine_body W path tok tr = (Ret r, tr') →
  ∃ tracks, yields W path tok tracks ∧ r = process_results tracks.
Proof.
  unfold engine_body, yields. unfold_monad. fold checkpoint.
  destruct (from_pretrained W checkpoint tok) as [[]|]; [|done].
  destruct (cuda_is_available W) as [[|]|]; [| |done].
  - destruct (pipeline_to W "cuda") as [[]|]; [|done].
    destruct (pipeline_call W path) as [tracks|]; [|done].
    intros [= <- _]. exists tracks. eauto 10.
  - destruct (pipeline_call W path) as [tracks|]; [|done].
    intros [= <- _]. exists tracks. eauto 10.
Qed.

(** A success of the engine path is [process_results] of what the engine
    yielded. *)
Lemma pyannote_diarization_success_inv W path hf tr method n segs sps tr' :
  pyannote_diarization W path hf tr = (Ret (Success method n segs sps), tr') →
  ∃ tok tracks,
    yields W path tok tracks
    ∧ Success method n segs sps = process_results tracks.
Proof.
  unfold pyannote_diarization. unfold_monad.
  destruct (import_pyannote W) as [[]|e1]; simpl;
    [|destruct (isinstance_ImportError e1); done].
  destruct (import_torch W) as [[]|e2]; simpl;
    [|destruct (isinstance_ImportError e2); done].
  destruct (resolve_token (environ W) hf) as [tok|]; [|done].
  destruct (truthy (Some tok)); [|done].
  destruct (engine_body W path tok _) as [[r|e] tr2] eqn:Hbody.
  - intros [= -> _]. exists tok. by eapply engine_body_returns_inv.
  - by destruct (isinstance_Exception e).
Qed.
End DiarizationAdapter.

Section DiarizationAdapterTraces.
Import speaker_diarize diarize_engine.
Context {R : Type} `{PyFloat R}.
Implicit Types (W : World R) (args : Args).

(** The first thing the second [try] does is load the pipeline with the
    resolved token. *)
Lemma engine_body_first_call W path tok tr :
  ∃ outcome rest,
    engine_body W path tok tr
    = (outcome, tr ++ EvFromPretrained checkpoint tok :: rest).
Proof.
  unfold engine_body. unfold_monad. fold checkpoint.
  destruct (from_pretrained W checkpoint tok) as [[]|]; simpl; [|by eexists _, []].
  destruct (cuda_is_available W) as [[|]|]; simpl.
  - destruct (pipeline_to W "cuda") as [[]|]; simpl.
    + destruct (pipeline_call W path); simpl; rewrite <- !app_assoc; by eexists _, _.
    + rewrite <- !app_assoc; by eexists _, _.
  - destruct (pipeline_call W path); simpl; rewrite <- !app_assoc; by eexists _, _.
  - rewrite <- !app_assoc; by eexists _, _.
Qed.

(** [main] on an existing file without [--simple]: print what
    [pyannote_diarization] returns and exit accordingly. *)
Lemma main_engine_path W args result tr :
  path_exists W (audio_path args) = true → simple args = false →
  pyannote_diarization W (audio_path args) (token args) [] = (Ret result, tr) →
  run (main W args)
  = (tr ++ [EvPrint result], Exited (if success result then 0 else 1)).
Proof.
  intros Hex Hsimple Hres. unfold main, print. rewrite Hex, Hsimple. simpl.
  unfold run, bind at 1. rewrite Hres. unfold_monad. done.
Qed.
End DiarizationAdapterTraces.

(** C7.  With [--simple] on an existing file the adapter prints exactly
    [{success: true, method: "fallback", speaker_count: 1, segments: [],
    speakers: [{id: 1, name: "Speaker 1", total_duration: 0}]}] and exits
    with code 0, whatever the world (audio content, engine, environment)
    and whatever [--token]; it makes no engine call at all. *)
Theorem simple_flag_prints_fixed_fallback {R : Type} `{PyFloat R}
    (W : speaker_diarize.World R) (args : speaker_diarize.Args) :
  speaker_diarize.path_exists W (speaker_diarize.audio_path args) = true →
  speaker_diarize.simple args = true →
  run (speaker_diarize.main W args)
  = ([ speaker_diarize.EvPrint
         (speaker_diarize.Success "fallback" 1 []
            [ speaker_diarize.Build_Speaker R 1 "Speaker 1" fzero ]) ],
     Exited 0).
Proof.
  intros Hex Hsimple. unfold speaker_diarize.main, speaker_diarize.print.
  rewrite Hex, Hsimple. reflexivity.
Qed.

Lemma simple_flag_prints_fixed_fallback_witness :
  let W := diarize_engine.world_load_raising (R := Q) KeyboardInterrupt in
  let args := speaker_diarize.Build_Args "a.wav" (Some "hf_secret") true in
  (speaker_diarize.path_exists W (speaker_diarize.audio_path args) = true
   ∧ speaker_diarize.simple args = true)
  ∧ run (speaker_diarize.main W args)
    = ([ speaker_diarize.EvPrint
           (speaker_diarize.Success "fallback" 1 []
              [ speaker_diarize.Build_Speaker Q 1 "Speaker 1" 0%Q ]) ],
       Exited 0).
Proof.
  intros W args. split; [by split|].
  exact (simple_flag_prints_fixed_fallback W args eq_refl eq_refl).
Defined.

(** C8.  On an existing file without [--simple], when importing the
    diarization library raises [ImportError] the adapter prints
    [{success: false, error: "pyannote.audio not installed. Run: pip install
    pyannote.audio torch"}] and exits with code 1, right after that import:
    nothing is read from [--token] or the environment, so the run is the
    same under any other token and environment. *)
Theorem missing_engine_reported_before_credentials {R : Type} `{PyFloat R}
    (W : speaker_diarize.World R) (args : speaker_diarize.Args) (msg : string) :
  speaker_diarize.path_exists W (speaker_diarize.audio_path args) = true →
  speaker_diarize.simple args = false →
  speaker_diarize.import_pyannote W = Raise (ImportError msg) →
  run (speaker_diarize.main W args)
  = ([ speaker_diarize.EvImport "pyannote.audio";
       speaker_diarize.EvPrint
         (speaker_diarize.Failure speaker_diarize.not_installed_error) ],
     Exited 1)
  ∧ contains "pip install" speaker_diarize.not_installed_error = true
  ∧ ∀ token' environ',
      run (speaker_diarize.main (diarize_engine.with_environ W environ')
             (diarize_engine.with_token args token'))
      = run (speaker_diarize.main W args).
Proof.
  intros Hex Hsimple Himp.
  assert (Hrun : ∀ W' args',
    speaker_diarize.path_exists W' (speaker_diarize.audio_path args') = true →
    speaker_diarize.simple args' = false →
    speaker_diarize.import_pyannote W' = Raise (ImportError msg) →
    run (speaker_diarize.main W' args')
    = ([ speaker_diarize.EvImport "pyannote.audio";
         speaker_diarize.EvPrint
           (speaker_diarize.Failure speaker_diarize.not_installed_error) ],
       Exited 1)).
  { intros W' args' Hex' Hsimple' Himp'.
    unfold speaker_diarize.main, speaker_diarize.pyannote_diarization,
      speaker_diarize.print.
    rewrite Hex', Hsimple'. unfold_monad. rewrite Himp'. reflexivity. }
  split; [by apply Hrun|]. split; [reflexivity|].
  intros token' environ'. rewrite (Hrun W args) by done. by apply Hrun.
Qed.

Lemma missing_engine_reported_before_credentials_witness :
  let W := diarize_engine.world_not_installed (R := Q) ∅ in
  let args := diarize_engine.engine_args "a.wav" None in
  (speaker_diarize.path_exists W (speaker_diarize.audio_path args) = true
   ∧ speaker_diarize.simple args = false
   ∧ speaker_diarize.import_pyannote W
     = Raise (ImportError "No module named 'pyannote'"))
  ∧ run (speaker_diarize.main
           (diarize_engine.with_environ W {[ "HF_TOKEN" := "hf_secret" ]})
           (diarize_engine.with_token args (Some "hf_other")))
    = run (speaker_diarize.main W args).
Proof.
  intros W args. split; [by repeat split|].
  exact (proj2 (proj2 (missing_engine_reported_before_credentials W args
                         "No module named 'pyannote'" eq_refl eq_refl eq_refl))
           (Some "hf_other") {[ "HF_TOKEN" := "hf_secret" ]}).
Defined.

(** C5.  On the engine path (existing file, no [--simple], library
    importable) the credential is the first non-empty one among [--token],
    [HUGGINGFACE_TOKEN] and [HF_TOKEN], in that order, and it is what the
    pipeline is loaded with; when none of the three gives a non-empty
    string, the adapter loads nothing, prints [{success: false, error:
    "HuggingFace token required. ..."}] and exits with code 1. *)
Theorem credential_priority_then_required_error {R : Type} `{PyFloat R}
    (W : speaker_diarize.World R) (args : speaker_diarize.Args) :
  speaker_diarize.path_exists W (speaker_diarize.audio_path args) = true →
  speaker_diarize.simple args = false →
  speaker_diarize.import_pyannote W = Ret () →
  speaker_diarize.import_torch W = Ret () →
  let hf := speaker_diarize.token args in
  let env1 := speaker_diarize.environ W !! "HUGGINGFACE_TOKEN" in
  let env2 := speaker_diarize.environ W !! "HF_TOKEN" in
  let imports := [ speaker_diarize.EvImport (R := R) "pyannote.audio";
                   speaker_diarize.EvImport "torch" ] in
  (∀ tok, tok ≠ "" →
     hf = Some tok
     ∨ (truthy hf = false ∧ env1 = Some tok)
     ∨ (truthy hf = false ∧ truthy env1 = false ∧ env2 = Some tok) →
     speaker_diarize.resolve_token (speaker_diarize.environ W) hf = Some tok
     ∧ ∃ outcome rest,
         speaker_diarize.pyannote_diarization W
           (speaker_diarize.audio_path args) hf []
         = (outcome,
            imports
            ++ speaker_diarize.EvFromPretrained diarize_engine.checkpoint tok
               :: rest))
  ∧ (truthy hf = false → truthy env1 = false → truthy env2 = false →
     speaker_diarize.pyannote_diarization W
       (speaker_diarize.audio_path args) hf []
     = (Ret (speaker_diarize.Failure speaker_diarize.token_required_error),
        imports)
     ∧ run (speaker_diarize.main W args)
       = (imports
          ++ [ speaker_diarize.EvPrint
                 (speaker_diarize.Failure
                    speaker_diarize.token_required_error) ],
          Exited 1)).
Proof.
  intros Hex Hsimple Hp Ht hf env1 env2 imports. split.
  - intros tok Hne Hsrc.
    assert (Htruthy : truthy (Some tok) = true)
      by (apply truthy_Some; eauto).
    assert (Hres : speaker_diarize.resolve_token (speaker_diarize.environ W) hf
                   = Some tok).
    { rewrite resolve_token_priority. fold env1 env2.
      destruct Hsrc as [->|[[Hhf ->]|(Hhf & He1 & ->)]].
      - by rewrite Htruthy.
      - by rewrite Hhf, Htruthy.
      - by rewrite Hhf, He1. }
    split; [done|].
    rewrite (pyannote_diarization_engine W _ hf tok [] Hp Ht Hres Hne).
    unfold try_except.
    destruct (engine_body_first_call W (speaker_diarize.audio_path args) tok
                ([] ++ [speaker_diarize.EvImport "pyannote.audio"]
                 ++ [speaker_diarize.EvImport "torch"]))
      as (outcome & rest & ->).
    destruct outcome as [r|e]; [by eexists _, _|].
    destruct (isinstance_Exception e); by eexists _, _.
  - intros Hhf He1 He2.
    assert (Hnone : truthy (speaker_diarize.resolve_token
                              (speaker_diarize.environ W) hf) = false).
    { rewrite resolve_token_priority. fold env1 env2. by rewrite Hhf, He1. }
    pose proof (pyannote_diarization_no_token W
                  (speaker_diarize.audio_path args) hf [] Hp Ht Hnone) as Hret.
    split; [exact Hret|].
    by rewrite (main_engine_path W args _ _ Hex Hsimple Hret).
Qed.

Lemma credential_priority_then_required_error_witness :
  let W := diarize_engine.with_environ
             (diarize_engine.world_yielding (R := Q) [])
             {[ "HUGGINGFACE_TOKEN" := ""; "HF_TOKEN" := "hf_secret" ]} in
  let args := diarize_engine.engine_args "a.wav" None in
  (speaker_diarize.path_exists W (speaker_diarize.audio_path args) = true
   ∧ speaker_diarize.simple args = false
   ∧ speaker_diarize.import_pyannote W = Ret ()
   ∧ speaker_diarize.import_torch W = Ret ())
  ∧ speaker_diarize.resolve_token (speaker_diarize.environ W)
      (speaker_diarize.token args) = Some "hf_secret".
Proof.
  intros W args. split; [by repeat split|].
  refine (proj1 (proj1 (credential_priority_then_required_error W args
                          eq_refl eq_refl eq_refl eq_refl) "hf_secret" _ _)).
  - discriminate.
  - right. right. by repeat split.
Defined.

(** C10.  An explicit [--token ""] is treated as no [--token]: the
    function runs exactly as with [None]; resolution falls through to the
    environment, so the pipeline is loaded with [HUGGINGFACE_TOKEN] when
    that is non-empty and otherwise with [HF_TOKEN] when that is non-empty;
    and when those are absent or empty too, the adapter answers with the
    credential-required error and exits with code 1. *)
Theorem empty_token_argument_counts_as_absent {R : Type} `{PyFloat R}
    (W : speaker_diarize.World R) (args : speaker_diarize.Args) :
  speaker_diarize.path_exists W (speaker_diarize.audio_path args) = true →
  speaker_diarize.simple args = false →
  speaker_diarize.import_pyannote W = Ret () →
  speaker_diarize.import_torch W = Ret () →
  speaker_diarize.token args = Some "" →
  let env1 := speaker_diarize.environ W !! "HUGGINGFACE_TOKEN" in
  let env2 := speaker_diarize.environ W !! "HF_TOKEN" in
  let imports := [ speaker_diarize.EvImport (R := R) "pyannote.audio";
                   speaker_diarize.EvImport "torch" ] in
  (∀ path tr,
     speaker_diarize.pyannote_diarization W path (Some "") tr
     = speaker_diarize.pyannote_diarization W path None tr)
  ∧ run (speaker_diarize.main W args)
    = run (speaker_diarize.main W (diarize_engine.with_token args None))
  ∧ (∀ tok, tok ≠ "" →
       env1 = Some tok ∨ (truthy env1 = false ∧ env2 = Some tok) →
       speaker_diarize.resolve_token (speaker_diarize.environ W) (Some "")
       = Some tok
       ∧ ∃ outcome rest,
           speaker_diarize.pyannote_diarization W
             (speaker_diarize.audio_path args) (Some "") []
           = (outcome,
              imports
              ++ speaker_diarize.EvFromPretrained diarize_engine.checkpoint tok
                 :: rest))
  ∧ (truthy env1 = false → truthy env2 = false →
     run (speaker_diarize.main W args)
     = (imports
        ++ [ speaker_diarize.EvPrint
               (speaker_diarize.Failure speaker_diarize.token_required_error) ],
        Exited 1)).
Proof.
  intros Hex Hsimple Hp Ht Htok env1 env2 imports.
  assert (Hsame : ∀ path tr,
            speaker_diarize.pyannote_diarization W path (Some "") tr
            = speaker_diarize.pyannote_diarization W path None tr) by done.
  split; [exact Hsame|]. split; [|split].
  - destruct args as [path tok simple]. simpl in Hex, Hsimple, Htok. subst.
    unfold speaker_diarize.main, diarize_engine.with_token. simpl.
    rewrite Hex. reflexivity.
  - intros tok Hne Hsrc.
    assert (Htruthy : truthy (Some tok) = true)
      by (apply truthy_Some; eauto).
    assert (Hres : speaker_diarize.resolve_token (speaker_diarize.environ W)
                     (Some "") = Some tok).
    { rewrite resolve_token_priority. fold env1 env2. simpl.
      destruct Hsrc as [->|[He1 ->]].
      - by rewrite Htruthy.
      - by rewrite He1. }
    split; [done|].
    rewrite (pyannote_diarization_engine W _ (Some "") tok [] Hp Ht Hres Hne).
    unfold try_except.
    destruct (engine_body_first_call W (speaker_diarize.audio_path args) tok
                ([] ++ [speaker_diarize.EvImport "pyannote.audio"]
                 ++ [speaker_diarize.EvImport "torch"]))
      as (outcome & rest & ->).
    destruct outcome as [r|e]; [by eexists _, _|].
    destruct (isinstance_Exception e); by eexists _, _.
  - intros He1 He2.
    assert (Hnone : truthy (speaker_diarize.resolve_token
                              (speaker_diarize.environ W)
                              (speaker_diarize.token args)) = false).
    { rewrite Htok, resolve_token_priority. fold env1 env2. simpl.
      by rewrite He1. }
    by rewrite (main_engine_path W args _ _ Hex Hsimple
                  (pyannote_diarization_no_token W _ _ [] Hp Ht Hnone)).
Qed.

Lemma empty_token_argument_counts_as_absent_witness :
  let W1 := diarize_engine.with_environ
              (diarize_engine.world_yielding (R := Q) [])
              {[ "HUGGINGFACE_TOKEN" := "hf_primary" ]} in
  let W2 := diarize_engine.with_environ
              (diarize_engine.world_yielding (R := Q) [])
              {[ "HUGGINGFACE_TOKEN" := "" ]} in
  let args := diarize_engine.engine_args "a.wav" (Some "") in
  (speaker_diarize.path_exists W1 (speaker_diarize.audio_path args) = true
   ∧ speaker_diarize.simple args = false
   ∧ speaker_diarize.import_pyannote W1 = Ret ()
   ∧ speaker_diarize.import_torch W1 = Ret ()
   ∧ speaker_diarize.token args = Some "")
  ∧ speaker_diarize.resolve_token (speaker_diarize.environ W1) (Some "")
    = Some "hf_primary"
  ∧ run (speaker_diarize.main W2 args)
    = ([ speaker_diarize.EvImport "pyannote.audio";
         speaker_diarize.EvImport "torch";
         speaker_diarize.EvPrint
           (speaker_diarize.Failure speaker_diarize.token_required_error) ],
       Exited 1).
Proof.
  intros W1 W2 args. split; [by repeat split|]. split.
  - refine (proj1 (proj1 (proj2 (proj2
              (empty_token_argument_counts_as_absent W1 args
                 eq_refl eq_refl eq_refl eq_refl eq_refl)))
              "hf_primary" _ _)).
    + discriminate.
    + by left.
  - exact (proj2 (proj2 (proj2 (empty_token_argument_counts_as_absent W2 args
                                  eq_refl eq_refl eq_refl eq_refl eq_refl)))
             eq_refl eq_refl).
Defined.

(** ** Talk time per speaker *)

Section TalkTime.
Import speaker_diarize diarize_engine.
Context {R : Type} `{PyFloat R}.
Implicit Types (tracks : list (Turn R * string)) (m : gmap string nat).

Lemma dict_get_elem {V} (d : list (nat * V)) k v :
  NoDup d.*1 → (k, v) ∈ d → dict_get k d = Some v.
Proof.
  induction d as [|[k' v'] d IH]; simpl; intros Hnd Hin.
  - by apply elem_of_nil in Hin.
  - apply NoDup_cons in Hnd as [Hk' Hnd].
    apply elem_of_cons in Hin as [[= -> ->]|Hin].
    + by rewrite Nat.eqb_refl.
    + destruct (Nat.eqb_spec k k') as [->|_]; [|by apply IH].
      destruct Hk'. apply list_elem_of_fmap. by exists (k', v).
Qed.

(** The turns whose segment carries an id are the turns whose label has
    that id. *)
Lemma turns_duration_label_total m speaker_id tracks :
  (∀ track, track ∈ tracks → is_Some (m !! track.2)) →
  turns_duration speaker_id tracks (segment_of m <$> tracks)
  = label_total m speaker_id tracks.
Proof.
  intros Hdom. unfold turns_duration, label_total. f_equal.
  induction tracks as [|track tracks IH]; [done|].
  destruct (Hdom track (list_elem_of_here _ _)) as [n Hn].
  rewrite fmap_cons. cbn [zip_with]. rewrite !filter_cons.
  assert (IH' := IH (λ t Ht, Hdom t (list_elem_of_further _ _ _ Ht))).
  repeat case_decide; unfold segment_of in *; simpl in *;
    rewrite ?(lookup_total_correct _ _ _ Hn) in *;
    first [ congruence | exact IH' | f_equal; exact IH' ].
Qed.

(** When rounding to 3 places changes no boundary, the segments carry the
    turn lengths themselves. *)
Lemma segments_duration_label_total m speaker_id tracks :
  (∀ track, track ∈ tracks → is_Some (m !! track.2)) →
  (∀ track, track ∈ tracks →
     fround 3 (t_start track.1) = t_start track.1
     ∧ fround 3 (t_end track.1) = t_end track.1) →
  segments_duration speaker_id (segment_of m <$> tracks)
  = label_total m speaker_id tracks.
Proof.
  intros Hdom Hround. unfold segments_duration, label_total. f_equal.
  induction tracks as [|track tracks IH]; [done|].
  destruct (Hdom track (list_elem_of_here _ _)) as [n Hn].
  destruct (Hround track (list_elem_of_here _ _)) as [Hs He].
  rewrite fmap_cons, !filter_cons.
  assert (IH' := IH (λ t Ht, Hdom t (list_elem_of_further _ _ _ Ht))
                    (λ t Ht, Hround t (list_elem_of_further _ _ _ Ht))).
  repeat case_decide; unfold segment_of in *; simpl in *;
    rewrite ?(lookup_total_correct _ _ _ Hn) in *;
    first [ congruence | exact IH'
          | rewrite ?Hs, ?He; f_equal; exact IH' ].
Qed.

Lemma run_loop_labels_mapped tracks track :
  track ∈ tracks → is_Some (speaker_mapping (run_loop tracks) !! track.2).
Proof.
  intros Hin.
  destruct (invariant_lookup_seen tracks _ track.2 (run_loop_invariant tracks))
    as (i & Hi & _); [by apply list_elem_of_fmap_2 | eauto].
Qed.

(** Each entry of [speakers] holds the rounded total of its id. *)
Lemma build_speakers_totals tracks sp :
  sp ∈ build_speakers (speaker_times (run_loop tracks)) →
  sp_total_duration sp
  = fround 2 (label_total (speaker_mapping (run_loop tracks)) (sp_id sp) tracks).
Proof.
  pose proof (run_loop_invariant tracks) as Hinv.
  rewrite build_speakers_run_loop.
  intros ([k v] & -> & Hin)%list_elem_of_fmap. simpl. f_equal.
  assert (Hk : k ∈ (speaker_times (run_loop tracks)).*1)
    by (apply list_elem_of_fmap; by exists (k, v)).
  pose proof (inv_times _ _ Hinv k Hk) as Hget.
  rewrite (dict_get_elem _ k v) in Hget; [congruence | | done].
  rewrite (inv_times_keys _ _ Hinv). apply NoDup_seq.
Qed.
End TalkTime.

(** C3, as the code has it.  In every successful result of the engine path
    the engine yielded some turns, [segments] has one entry per turn, and
    each speaker's [total_duration] is, rounded to 2 decimal places, the
    sum of the unrounded [end - start] of the engine's turns whose
    [segments] entry carries that speaker's id.  It is the sum of
    [end - start] over that speaker's [segments] entries themselves whenever
    rounding changes neither a turn boundary (3 places) nor that sum
    (2 places). *)
Theorem total_duration_is_rounded_sum_of_turn_lengths {R : Type} `{PyFloat R}
    (W : speaker_diarize.World R) (path : string) (hf : option string)
    (tr tr' : list (speaker_diarize.Event R)) (method : string) (n : nat)
    (segs : list (speaker_diarize.Segment R))
    (sps : list (speaker_diarize.Speaker R)) :
  speaker_diarize.pyannote_diarization W path hf tr
  = (Ret (speaker_diarize.Success method n segs sps), tr') →
  ∃ tracks,
    speaker_diarize.pipeline_call W path = Ret tracks
    ∧ length segs = length tracks
    ∧ (∀ sp, sp ∈ sps →
         speaker_diarize.sp_total_duration sp
         = fround 2 (diarize_engine.turns_duration
                       (speaker_diarize.sp_id sp) tracks segs))
    ∧ ((∀ track, track ∈ tracks →
          fround 3 (speaker_diarize.t_start track.1)
          = speaker_diarize.t_start track.1
          ∧ fround 3 (speaker_diarize.t_end track.1)
            = speaker_diarize.t_end track.1) →
       ∀ sp, sp ∈ sps →
         fround 2 (segments_duration (speaker_diarize.sp_id sp) segs)
         = segments_duration (speaker_diarize.sp_id sp) segs →
         speaker_diarize.sp_total_duration sp
         = segments_duration (speaker_diarize.sp_id sp) segs).
Proof.
  intros Hret.
  destruct (pyannote_diarization_success_inv _ _ _ _ _ _ _ _ _ Hret)
    as (tok & tracks & (_ & _ & Hcall) & Hres).
  rewrite process_results_shape in Hres. injection Hres as _ _ -> ->.
  exists tracks. split; [done|]. split; [by rewrite length_fmap|].
  pose proof (run_loop_labels_mapped tracks) as Hdom. split.
  - intros sp Hsp.
    rewrite turns_duration_label_total by done.
    by apply build_speakers_totals.
  - intros Hround sp Hsp Hsum.
    rewrite segments_duration_label_total in * by done.
    rewrite (build_speakers_totals _ _ Hsp). done.
Qed.

Lemma total_duration_is_rounded_sum_of_turn_lengths_witness :
  let tracks := [ (speaker_diarize.Build_Turn Q 0%Q (251 # 250)%Q, "SPEAKER_00");
                  (speaker_diarize.Build_Turn Q (3 # 2)%Q (5 # 2)%Q, "SPEAKER_01");
                  (speaker_diarize.Build_Turn Q (5 # 2)%Q (7 # 2)%Q, "SPEAKER_00") ] in
  let W := diarize_engine.world_yielding tracks in
  let segs := [ speaker_diarize.Build_Segment Q 0%Q (251 # 250)%Q "Speaker 1" 1;
                speaker_diarize.Build_Segment Q (3 # 2)%Q (5 # 2)%Q "Speaker 2" 2;
                speaker_diarize.Build_Segment Q (5 # 2)%Q (7 # 2)%Q "Speaker 1" 1 ] in
  let sps := [ speaker_diarize.Build_Speaker Q 1 "Speaker 1" 2%Q;
               speaker_diarize.Build_Speaker Q 2 "Speaker 2" 1%Q ] in
  let log := [ speaker_diarize.EvImport "pyannote.audio";
               speaker_diarize.EvImport "torch";
               speaker_diarize.EvFromPretrained diarize_engine.checkpoint
                 "hf_secret";
               speaker_diarize.EvCudaIsAvailable;
               speaker_diarize.EvPipelineCall "a.wav" ] in
  speaker_diarize.pyannote_diarization W "a.wav" None []
  = (Ret (speaker_diarize.Success "pyannote" 2 segs sps), log)
  ∧ ∃ tracks',
      speaker_diarize.pipeline_call W "a.wav" = Ret tracks'
      ∧ length segs = length tracks'
      ∧ ∀ sp, sp ∈ sps →
          speaker_diarize.sp_total_duration sp
          = fround 2 (diarize_engine.turns_duration
                        (speaker_diarize.sp_id sp) tracks' segs).
Proof.
  intros tracks W segs sps log.
  assert (Hret : speaker_diarize.pyannote_diarization W "a.wav" None []
                 = (Ret (speaker_diarize.Success "pyannote" 2 segs sps), log))
    by (vm_compute; reflexivity).
  split; [exact Hret|].
  destruct (total_duration_is_rounded_sum_of_turn_lengths
              W "a.wav" None [] log "pyannote" 2 segs sps Hret)
    as (tracks' & Hcall & Hlen & Htotal & _).
  exists tracks'. auto.
Defined.

(** C3, as stated, fails: the engine yields one turn from 0 to 1.004
    seconds; the adapter answers with the segment [0.0, 1.004] and the
    total 1.0, and the sum of [end - start] over that speaker's segments
    is 1.004. *)
Lemma total_duration_differs_from_segment_sum :
  let W := diarize_engine.world_yielding
             [ (speaker_diarize.Build_Turn Q 0%Q (1004 # 1000)%Q, "SPEAKER_00") ] in
  let segs := [ speaker_diarize.Build_Segment Q 0%Q (251 # 250)%Q "Speaker 1" 1 ] in
  let sp := speaker_diarize.Build_Speaker Q 1 "Speaker 1" 1%Q in
  run (speaker_diarize.main W (diarize_engine.engine_args "a.wav" None))
  = ([ speaker_diarize.EvImport "pyannote.audio";
       speaker_diarize.EvImport "torch";
       speaker_diarize.EvFromPretrained diarize_engine.checkpoint "hf_secret";
       speaker_diarize.EvCudaIsAvailable;
       speaker_diarize.EvPipelineCall "a.wav";
       speaker_diarize.EvPrint (speaker_diarize.Success "pyannote" 1 segs [sp]) ],
     Exited 0)
  ∧ segments_duration (speaker_diarize.sp_id sp) segs = (251 # 250)%Q
  ∧ speaker_diarize.sp_total_duration sp = 1%Q
  ∧ ¬ (speaker_diarize.sp_total_duration sp
       == segments_duration (speaker_diarize.sp_id sp) segs)%Q.
Proof.
  intros W segs sp. split; [vm_compute; reflexivity|].
  split; [vm_compute; reflexivity|]. split; [reflexivity|].
  vm_compute. discriminate.
Qed.

(** ** whisper_transcribe.py *)

Section WhisperAdapter.
Import whisper_transcribe whisper_engine.
Implicit Types (W : World) (args : Args) (d : gmap string Value).

Lemma append_word_has_word words d w s e tr :
  has_word d w s e →
  append_word words d tr
  = (Ret (words ++ [ {| wd_word := w; wd_start := s; wd_end := e |} ]), tr).
Proof.
  intros (Hw & Hs & He). unfold append_word, getitem. unfold_monad.
  by rewrite Hw, Hs, He.
Qed.

(** Only the entries ["word"], ["start"] and ["end"] of a word dictionary
    are read. *)
Lemma append_word_ignores_other_keys words d key v tr :
  key ≠ "word" → key ≠ "start" → key ≠ "end" →
  append_word words (<[key := v]> d) tr = append_word words d tr.
Proof.
  intros H1 H2 H3. unfold append_word, getitem.
  by rewrite !lookup_insert_ne by done.
Qed.

(** Past the import and the existence check, the script prints what
    [transcribe_audio] returns and exits accordingly. *)
Lemma script_transcribes W args result tr :
  import_whisper W = Ret () →
  path_exists W (Path (audio_path args)) = true →
  transcribe_audio W (audio_path args) (model args) (arg_language args)
    [EvImport "whisper"]
  = (Ret result, tr) →
  run (script W args)
  = (tr ++ [EvPrint result], Exited (if success result then 0 else 1)).
Proof.
  intros Himp Hex Hres. unfold script, main, print.
  unfold run, try_except, bind at 1, call at 1. rewrite Himp, Hex. simpl.
  unfold bind at 1. rewrite Hres. unfold_monad. by destruct result.
Qed.

Lemma whisper_engine_body_raises W path model lang e tr :
  raises W path model lang e →
  ∃ evs, engine_body W path model lang tr = (Raise e, tr ++ evs).
Proof.
  intros [Hl|Hl Ht]; unfold engine_body; unfold_monad; rewrite ?Hl, ?Ht;
    simpl; rewrite <- ?app_assoc; eauto.
Qed.

(** Reshaping the engine's answer calls nothing: the log is unchanged. *)
Lemma for_each_silent {A S} (xs : list A) (body : S → A → M Event S)
    acc tr outcome tr' :
  (∀ a x t1 o1 t2, body a x t1 = (o1, t2) → t2 = t1) →
  for_each xs body acc tr = (outcome, tr') → tr' = tr.
Proof.
  intros Hbody. revert acc tr. induction xs as [|x xs IH]; simpl.
  - by intros acc tr [= _ <-].
  - intros acc tr. unfold bind.
    destruct (body acc x tr) as [[a|e] t1] eqn:Hb; apply Hbody in Hb as ->.
    + apply IH.
    + by intros [= _ <-].
Qed.

Lemma append_word_silent words d tr outcome tr' :
  append_word words d tr = (outcome, tr') → tr' = tr.
Proof.
  unfold append_word, getitem. unfold_monad.
  destruct (d !! "word"); [|by intros [= _ <-]].
  destruct (d !! "start"); [|by intros [= _ <-]].
  destruct (d !! "end"); by intros [= _ <-].
Qed.

Lemma append_segment_silent acc segment tr outcome tr' :
  append_segment acc segment tr = (outcome, tr') → tr' = tr.
Proof.
  unfold append_segment, getitem. unfold_monad.
  destruct (es_fields segment !! "start"); [|by intros [= _ <-]].
  destruct (es_fields segment !! "end"); [|by intros [= _ <-]].
  destruct (es_fields segment !! "text"); [|by intros [= _ <-]].
  destruct (es_words segment) as [ws|]; [|by intros [= _ <-]].
  destruct (for_each ws append_word acc.2 tr) as [[r|e] t1] eqn:Hw;
    apply (for_each_silent _ _ _ _ _ _ append_word_silent) in Hw as ->;
    by intros [= _ <-].
Qed.

Lemma format_result_silent result tr outcome tr' :
  format_result result tr = (outcome, tr') → tr' = tr.
Proof.
  unfold format_result, getitem. unfold_monad.
  destruct (er_fields result !! "text"); [|by intros [= _ <-]].
  destruct (er_segments result) as [segs|]; [|by intros [= _ <-]].
  destruct (for_each segs append_segment _ _) as [[r|e] t1] eqn:Hs;
    apply (for_each_silent _ _ _ _ _ _ append_segment_silent) in Hs as ->;
    by intros [= _ <-].
Qed.

(** When the model loads, the engine is asked to transcribe with the
    options [build_options] makes. *)
Lemma whisper_engine_body_calls W path model lang tr :
  load_model W model = Ret () →
  ∃ outcome,
    engine_body W path model lang tr
    = (outcome,
       tr ++ [ EvLoadModel model;
               EvTranscribe model path (build_options lang) ]).
Proof.
  intros Hl. unfold engine_body. unfold_monad. rewrite Hl. simpl.
  destruct (transcribe W model path (build_options lang)) as [result|e].
  - destruct (format_result result _) as [o tr'] eqn:Hf.
    apply format_result_silent in Hf as ->.
    rewrite <- app_assoc. by eexists.
  - rewrite <- app_assoc. by eexists.
Qed.
(** The inner loop appends the words of a segment in order. *)
Lemma for_each_append_word (ws : list (gmap string Value))
    (wds acc : list WordData) tr :
  Forall2 (λ d wd, has_word d (wd_word wd) (wd_start wd) (wd_end wd)) ws wds →
  for_each ws append_word acc tr = (Ret (acc ++ wds), tr).
Proof.
  intros Hall. revert acc.
  induction Hall as [|d [w s e] ws wds Hd _ IH]; intros acc; simpl.
  - unfold ret. by rewrite app_nil_r.
  - unfold bind. rewrite (append_word_has_word _ _ _ _ _ _ Hd).
    rewrite IH. by rewrite <- app_assoc.
Qed.

(** One round of the outer loop: one more segment, then its words. *)
Lemma append_segment_with_words acc segment s e t ws wds tr :
  has_segment (es_fields segment) s e t →
  es_words segment = Some ws →
  Forall2 (λ d wd, has_word d (wd_word wd) (wd_start wd) (wd_end wd)) ws wds →
  append_segment acc segment tr
  = (Ret (acc.1 ++ [ {| sd_start := s; sd_end := e; sd_text := t |} ],
          acc.2 ++ wds), tr).
Proof.
  intros (Hs & He & Ht) Hws Hall. unfold append_segment, getitem.
  unfold bind, ret. rewrite Hs, He, Ht, Hws.
  by rewrite (for_each_append_word _ _ _ _ Hall).
Qed.
End WhisperAdapter.

(** C6.  When the engine's result has two segments of two words each (with
    the entries the script reads: ["text"]; ["start"], ["end"], ["text"] per
    segment; ["word"], ["start"], ["end"] per word), the adapter returns
    [words] with exactly the four words, first segment first and in word
    order inside a segment, each made of the three values of the engine's
    word, unchanged.  Nothing else of a word dictionary is read: adding or
    changing any other entry (a probability, a confidence) changes
    nothing. *)
Theorem words_flattened_in_segment_then_word_order
    (W : whisper_transcribe.World) (path model : string)
    (lang : option string) (result : whisper_transcribe.EngineResult)
    (f1 f2 d11 d12 d21 d22 : gmap string whisper_transcribe.Value)
    (text s1 e1 t1 s2 e2 t2 : whisper_transcribe.Value)
    (w11 a11 b11 w12 a12 b12 w21 a21 b21 w22 a22 b22 : whisper_transcribe.Value) :
  whisper_transcribe.load_model W model = Ret () →
  whisper_transcribe.transcribe W model path
    (whisper_transcribe.build_options lang) = Ret result →
  whisper_transcribe.er_fields result !! "text" = Some text →
  whisper_transcribe.er_segments result
  = Some [ whisper_transcribe.Build_EngineSegment f1 (Some [d11; d12]);
           whisper_transcribe.Build_EngineSegment f2 (Some [d21; d22]) ] →
  whisper_engine.has_segment f1 s1 e1 t1 →
  whisper_engine.has_segment f2 s2 e2 t2 →
  whisper_engine.has_word d11 w11 a11 b11 →
  whisper_engine.has_word d12 w12 a12 b12 →
  whisper_engine.has_word d21 w21 a21 b21 →
  whisper_engine.has_word d22 w22 a22 b22 →
  (∀ tr, ∃ language,
     whisper_transcribe.transcribe_audio W path model lang tr
     = (Ret (whisper_transcribe.Success text language
               [ whisper_transcribe.Build_SegmentData s1 e1 t1;
                 whisper_transcribe.Build_SegmentData s2 e2 t2 ]
               [ whisper_transcribe.Build_WordData w11 a11 b11;
                 whisper_transcribe.Build_WordData w12 a12 b12;
                 whisper_transcribe.Build_WordData w21 a21 b21;
                 whisper_transcribe.Build_WordData w22 a22 b22 ]),
        tr ++ [ whisper_transcribe.EvLoadModel model;
                whisper_transcribe.EvTranscribe model path
                  (whisper_transcribe.build_options lang) ]))
  ∧ (∀ words d key v tr,
       key ≠ "word" → key ≠ "start" → key ≠ "end" →
       whisper_transcribe.append_word words (<[key := v]> d) tr
       = whisper_transcribe.append_word words d tr).
Proof.
  intros Hl Ht Htext Hsegs Hf1 Hf2 H11 H12 H21 H22.
  split; [|intros; by apply append_word_ignores_other_keys].
  intros tr. eexists.
  unfold whisper_transcribe.transcribe_audio, whisper_transcribe.engine_body.
  unfold try_except, bind at 1 2, call. rewrite Hl, Ht.
  unfold whisper_transcribe.format_result, whisper_transcribe.getitem.
  rewrite Htext, Hsegs. unfold bind at 1, ret at 1.
  cbn [whisper_transcribe.for_each].
  unfold bind at 1 2.
  rewrite (append_segment_with_words _ _ s1 e1 t1 [d11; d12]
             [ whisper_transcribe.Build_WordData w11 a11 b11;
               whisper_transcribe.Build_WordData w12 a12 b12 ])
    by (try done; repeat first [assumption | constructor]).
  cbv beta iota. unfold bind at 1.
  rewrite (append_segment_with_words _ _ s2 e2 t2 [d21; d22]
             [ whisper_transcribe.Build_WordData w21 a21 b21;
               whisper_transcribe.Build_WordData w22 a22 b22 ])
    by (try done; repeat first [assumption | constructor]).
  unfold ret. simpl. by rewrite <- app_assoc.
Qed.

Lemma words_flattened_in_segment_then_word_order_witness :
  let W := whisper_engine.world_answering (Ret whisper_engine.example_result) in
  ∃ language,
    whisper_transcribe.transcribe_audio W "a.wav" "small" None []
    = (Ret (whisper_transcribe.Success
              (whisper_transcribe.VStr " hi you there now") language
              [ whisper_transcribe.Build_SegmentData
                  (whisper_transcribe.VFloat 0) (whisper_transcribe.VFloat 1)
                  (whisper_transcribe.VStr " hi you");
                whisper_transcribe.Build_SegmentData
                  (whisper_transcribe.VFloat 1) (whisper_transcribe.VFloat 2)
                  (whisper_transcribe.VStr " there now") ]
              [ whisper_transcribe.Build_WordData
                  (whisper_transcribe.VStr " hi")
                  (whisper_transcribe.VFloat 0)
                  (whisper_transcribe.VFloat (1 # 2));
                whisper_transcribe.Build_WordData
                  (whisper_transcribe.VStr " you")
                  (whisper_transcribe.VFloat (1 # 2))
                  (whisper_transcribe.VFloat 1);
                whisper_transcribe.Build_WordData
                  (whisper_transcribe.VStr " there")
                  (whisper_transcribe.VFloat 1)
                  (whisper_transcribe.VFloat (3 # 2));
                whisper_transcribe.Build_WordData
                  (whisper_transcribe.VStr " now")
                  (whisper_transcribe.VFloat (3 # 2))
                  (whisper_transcribe.VFloat 2) ]),
       [ whisper_transcribe.EvLoadModel "small";
         whisper_transcribe.EvTranscribe "small" "a.wav"
           (whisper_transcribe.build_options None) ]).
Proof.
  intros W.
  refine (proj1 (words_flattened_in_segment_then_word_order
            W "a.wav" "small" None whisper_engine.example_result
            _ _ _ _ _ _ _ _ _ _ _ _ _ _ _ _ _ _ _ _ _ _ _ _ _
            eq_refl eq_refl _ eq_refl _ _ _ _ _ _) []);
    repeat split; reflexivity.
Defined.

(** C9, as the code has it.  The options handed to the engine carry a
    language exactly when [--language] was given, is not the empty string
    and is not ["auto"] (word timestamps are always requested); and in a
    mapped result the language is the engine's own whenever its result has
    a ["language"] entry, and ["unknown"] exactly when it has none. *)
Theorem language_hint_passed_when_nonempty_and_not_auto
    (W : whisper_transcribe.World) (path model : string)
    (lang : option string) :
  whisper_transcribe.load_model W model = Ret () →
  (∀ tr, ∃ outcome,
     whisper_transcribe.transcribe_audio W path model lang tr
     = (outcome,
        tr ++ [ whisper_transcribe.EvLoadModel model;
                whisper_transcribe.EvTranscribe model path
                  (whisper_transcribe.build_options lang) ]))
  ∧ whisper_transcribe.word_timestamps
      (whisper_transcribe.build_options lang) = true
  ∧ (∀ l, whisper_transcribe.language
            (whisper_transcribe.build_options lang) = Some l
          ↔ lang = Some l ∧ l ≠ "" ∧ l ≠ "auto")
  ∧ (∀ result tr text language segs words tr',
       whisper_transcribe.format_result result tr
       = (Ret (whisper_transcribe.Success text language segs words), tr') →
       (whisper_transcribe.er_fields result !! "language" = None →
        language = whisper_transcribe.VStr "unknown")
       ∧ (∀ v, whisper_transcribe.er_fields result !! "language" = Some v →
               language = v)).
Proof.
  intros Hl. split; [|split; [|split]].
  - intros tr. unfold whisper_transcribe.transcribe_audio, try_except.
    destruct (whisper_engine_body_calls W path model lang tr Hl) as [outcome ->].
    destruct outcome as [r|e]; [by eexists|].
    destruct (isinstance_Exception e); by eexists.
  - unfold whisper_transcribe.build_options.
    by destruct (truthy lang && _).
  - intros l. unfold whisper_transcribe.build_options.
    destruct lang as [s|]; simpl; [|naive_solver].
    destruct (String.eqb_spec s "") as [->|Hne]; simpl; [naive_solver|].
    case_bool_decide as Hauto; simpl.
    + injection Hauto as ->. naive_solver.
    + split; [intros [= ->]; split; [done|]; split; [done|congruence]
             | by intros [[= ->] _]].
  - intros result tr text language segs words tr'.
    unfold whisper_transcribe.format_result, whisper_transcribe.getitem.
    unfold_monad.
    destruct (whisper_transcribe.er_fields result !! "text") as [txt|];
      [|done].
    destruct (match whisper_transcribe.er_segments result with
              | Some segs0 => _ | None => _ end) as [[acc|e] t1]; [|done].
    intros Heq. injection Heq as _ <- _ _ _.
    split; [by intros ->|by intros v ->].
Qed.

Lemma language_hint_passed_when_nonempty_and_not_auto_witness :
  let W := whisper_engine.world_answering (Ret whisper_engine.example_result) in
  whisper_transcribe.load_model W "small" = Ret ()
  ∧ ∃ outcome,
      whisper_transcribe.transcribe_audio W "a.wav" "small" (Some "hi") []
      = (outcome,
         [ whisper_transcribe.EvLoadModel "small";
           whisper_transcribe.EvTranscribe "small" "a.wav"
             (whisper_transcribe.Build_Options true false (Some "hi")) ]).
Proof.
  intros W. split; [reflexivity|].
  exact (proj1 (language_hint_passed_when_nonempty_and_not_auto
                  W "a.wav" "small" (Some "hi") eq_refl) []).
Defined.

(** C9, as stated, fails: [--language ""] supplies a language that is not
    ["auto"], and the adapter does not pass it on. *)
Lemma empty_language_argument_is_not_passed :
  let W := whisper_engine.world_answering (Ret whisper_engine.example_result) in
  let args := whisper_engine.small_args "a.wav" (Some "") in
  whisper_transcribe.arg_language args = Some ""
  ∧ "" ≠ "auto"
  ∧ ∃ doc,
      run (whisper_transcribe.script W args)
      = ([ whisper_transcribe.EvImport "whisper";
           whisper_transcribe.EvLoadModel "small";
           whisper_transcribe.EvTranscribe "small" "a.wav"
             (whisper_transcribe.Build_Options true false None);
           whisper_transcribe.EvPrint doc ],
         Exited 0).
Proof.
  intros W args. split; [reflexivity|]. split; [discriminate|].
  eexists. vm_compute. reflexivity.
Qed.

(** ** Errors at the boundary *)

Lemma prefix_refl (s : string) : String.prefix s s = true.
Proof.
  induction s as [|c s IH]; simpl; [done|].
  by destruct (Ascii.ascii_dec c c).
Qed.

Lemma contains_refl (s : string) : contains s s = true.
Proof. destruct s as [|c s]; [done|]. cbn [contains]. by rewrite prefix_refl. Qed.

Lemma append_nil_l (s : string) : "" +:+ s = s.
Proof. reflexivity. Qed.

Lemma append_cons c (s t : string) : String c s +:+ t = String c (s +:+ t).
Proof. reflexivity. Qed.

Lemma prefix_iff (p s : string) :
  String.prefix p s = true ↔ ∃ post, s = p +:+ post.
Proof.
  revert s. induction p as [|a p IH]; intros s.
  - setoid_rewrite append_nil_l. destruct s; (split; [intros _; by eexists | done]).
  - setoid_rewrite append_cons. destruct s as [|b s]; simpl.
    + split; [done | intros [post Hpost]; discriminate].
    + destruct (Ascii.ascii_dec a b) as [->|Hne].
      * rewrite IH. split; intros [post Hpost]; exists post; congruence.
      * split; [done | intros [post Hpost]; congruence].
Qed.

(** [contains] decides the occurrence of a contiguous substring. *)
Lemma contains_iff (sub s : string) :
  contains sub s = true ↔ ∃ pre post, s = pre +:+ sub +:+ post.
Proof.
  induction s as [|c s IH]; cbn [contains];
    rewrite orb_true_iff, prefix_iff.
  - split.
    + intros [[post Hpost]|?]; [by exists "", post | done].
    + intros (pre & post & Hs). left.
      destruct pre; [by exists post | discriminate].
  - rewrite IH. split.
    + intros [[post Hpost]|(pre & post & ->)]; [by exists "", post|].
      by exists (String c pre), post.
    + intros ([|c' pre] & post & Hs); [left; by exists post|].
      right. rewrite append_cons in Hs. injection Hs as _ ->.
      by exists pre, post.
Qed.

(** A message that ends with [sub] contains it. *)
Lemma contains_suffix (pre sub : string) : contains sub (pre +:+ sub) = true.
Proof.
  induction pre as [|c pre IH].
  - apply contains_refl.
  - change (String c pre +:+ sub) with (String c (pre +:+ sub)).
    cbn [contains]. rewrite IH. apply orb_true_r.
Qed.

(** C4, as the code has it.  When an engine call raises an exception that
    is an instance of [Exception] (loading the pipeline or the model,
    choosing the device, running the pipeline, transcribing), either
    adapter catches it, prints [{success: false, error: str(e)}] and exits
    with code 1; the error text is the exception's own string, whatever it
    is.  No such exception leaves the process unhandled. *)
Theorem engine_exception_becomes_failure_document {R : Type} `{PyFloat R}
    (e : PyExc)
    (Wd : speaker_diarize.World R) (dargs : speaker_diarize.Args) (tok : string)
    (Ww : whisper_transcribe.World) (wargs : whisper_transcribe.Args) :
  isinstance_Exception e = true →
  (speaker_diarize.path_exists Wd (speaker_diarize.audio_path dargs) = true →
   speaker_diarize.simple dargs = false →
   speaker_diarize.import_pyannote Wd = Ret () →
   speaker_diarize.import_torch Wd = Ret () →
   speaker_diarize.resolve_token (speaker_diarize.environ Wd)
     (speaker_diarize.token dargs) = Some tok →
   tok ≠ "" →
   diarize_engine.raises Wd (speaker_diarize.audio_path dargs) tok e →
   ∃ calls,
     run (speaker_diarize.main Wd dargs)
     = (calls ++ [ speaker_diarize.EvPrint
                     (speaker_diarize.Failure (py_str e)) ],
        Exited 1)
     ∧ diarize_engine.printed calls = [])
  ∧ (whisper_transcribe.import_whisper Ww = Ret () →
     whisper_transcribe.path_exists Ww
       (Path (whisper_transcribe.audio_path wargs)) = true →
     whisper_engine.raises Ww (whisper_transcribe.audio_path wargs)
       (whisper_transcribe.model wargs)
       (whisper_transcribe.arg_language wargs) e →
     ∃ calls,
       run (whisper_transcribe.script Ww wargs)
       = (calls ++ [ whisper_transcribe.EvPrint
                       (whisper_transcribe.Failure (py_str e)) ],
          Exited 1)
       ∧ whisper_engine.printed calls = []).
Proof.
  intros He. split.
  - intros Hex Hsimple Hp Ht Htok Hne Hraises.
    pose proof (pyannote_diarization_engine Wd
                  (speaker_diarize.audio_path dargs) _ tok [] Hp Ht Htok Hne)
      as Hret.
    destruct (engine_body_raises Wd _ tok e
                ([] ++ [speaker_diarize.EvImport "pyannote.audio"]
                 ++ [speaker_diarize.EvImport "torch"]) Hraises)
      as [evs Hbody].
    unfold try_except in Hret. rewrite Hbody, He in Hret.
    eexists. split.
    + by rewrite (main_engine_path Wd dargs _ _ Hex Hsimple Hret).
    + destruct Hraises as [H1|H1 H2|H1 H2 H3|H1 H2 H3|H1 H2 H3 H4];
        revert Hbody; unfold speaker_diarize.engine_body; unfold_monad;
        fold diarize_engine.checkpoint; rewrite ?H1, ?H2, ?H3, ?H4; simpl;
        intros [= <-]; reflexivity.
  - intros Himp Hex Hraises.
    destruct (whisper_engine_body_raises Ww _ _ _ e
                [whisper_transcribe.EvImport "whisper"] Hraises)
      as [evs Hbody].
    assert (Hret : whisper_transcribe.transcribe_audio Ww
                     (whisper_transcribe.audio_path wargs)
                     (whisper_transcribe.model wargs)
                     (whisper_transcribe.arg_language wargs)
                     [whisper_transcribe.EvImport "whisper"]
                   = (Ret (whisper_transcribe.Failure (py_str e)),
                      [whisper_transcribe.EvImport "whisper"] ++ evs)).
    { unfold whisper_transcribe.transcribe_audio, try_except.
      by rewrite Hbody, He. }
    eexists. split.
    + by rewrite (script_transcribes Ww wargs _ _ Himp Hex Hret).
    + destruct Hraises as [H1|H1 H2];
        revert Hbody; unfold whisper_transcribe.engine_body; unfold_monad;
        rewrite ?H1, ?H2; simpl; intros [= <-]; reflexivity.
Qed.

Lemma engine_exception_becomes_failure_document_witness :
  let e := OtherException "CUDA out of memory" in
  let Wd := diarize_engine.world_load_raising (R := Q) e in
  let dargs := diarize_engine.engine_args "a.wav" None in
  let Ww := whisper_engine.world_load_raising e in
  let wargs := whisper_engine.small_args "a.wav" None in
  isinstance_Exception e = true
  ∧ (∃ calls,
       run (speaker_diarize.main Wd dargs)
       = (calls ++ [ speaker_diarize.EvPrint
                       (speaker_diarize.Failure "CUDA out of memory") ],
          Exited 1)
       ∧ diarize_engine.printed calls = [])
  ∧ (∃ calls,
       run (whisper_transcribe.script Ww wargs)
       = (calls ++ [ whisper_transcribe.EvPrint
                       (whisper_transcribe.Failure "CUDA out of memory") ],
          Exited 1)
       ∧ whisper_engine.printed calls = []).
Proof.
  intros e Wd dargs Ww wargs.
  pose proof (engine_exception_becomes_failure_document
                e Wd dargs "hf_secret" Ww wargs eq_refl) as [Hd Hw].
  split; [reflexivity|]. split.
  - apply Hd; try reflexivity; [discriminate|].
    by apply diarize_engine.raises_from_pretrained.
  - apply Hw; try reflexivity.
    by apply whisper_engine.raises_load_model.
Defined.

(** C4, as stated, fails.  An exception whose string is empty (a bare
    [assert] that fails inside the engine, [RuntimeError()]) is caught, and
    the error string of the document is then empty, in both adapters; and
    an exception outside [Exception] ([KeyboardInterrupt] while the
    pipeline loads) is not caught at all. *)
Lemma exception_without_message_gives_empty_error :
  let e := OtherException "" in
  let Wd := diarize_engine.world_load_raising (R := Q) e in
  let dargs := diarize_engine.engine_args "a.wav" None in
  let Ww := whisper_engine.world_load_raising e in
  let wargs := whisper_engine.small_args "a.wav" None in
  (diarize_engine.raises Wd "a.wav" "hf_secret" e
   ∧ run (speaker_diarize.main Wd dargs)
     = ([ speaker_diarize.EvImport "pyannote.audio";
          speaker_diarize.EvImport "torch";
          speaker_diarize.EvFromPretrained diarize_engine.checkpoint
            "hf_secret";
          speaker_diarize.EvPrint (speaker_diarize.Failure "") ],
        Exited 1))
  ∧ (whisper_engine.raises Ww "a.wav" "small" None e
     ∧ run (whisper_transcribe.script Ww wargs)
       = ([ whisper_transcribe.EvImport "whisper";
            whisper_transcribe.EvLoadModel "small";
            whisper_transcribe.EvPrint (whisper_transcribe.Failure "") ],
          Exited 1))
  ∧ run (speaker_diarize.main
           (diarize_engine.world_load_raising (R := Q) KeyboardInterrupt)
           dargs)
    = ([ speaker_diarize.EvImport "pyannote.audio";
         speaker_diarize.EvImport "torch";
         speaker_diarize.EvFromPretrained diarize_engine.checkpoint
           "hf_secret" ],
       Unhandled KeyboardInterrupt).
Proof.
  intros e Wd dargs Ww wargs. repeat split.
  - by apply diarize_engine.raises_from_pretrained.
  - by apply whisper_engine.raises_load_model.
Qed.

(** C2, as the code has it.  When the existence check fails:
    the Diarization Adapter prints [{success: false, error: "Audio file not
    found: <the literal path>"}] and exits with code 1 having called
    nothing of the engine, not even its import; the Transcription Adapter
    has imported its engine library before it looks at the path, and when
    that import succeeded it prints [{success: false, error: "Audio file
    not found: <str(Path(audio_path))>"}] (which holds the literal path
    whenever pathlib prints the path as it was given) and exits with code 1
    without loading a model or transcribing; when that import raises
    [ImportError] it prints the not-installed error and exits with code 1,
    whatever the path. *)
Theorem missing_file_reported_before_engine_is_loaded {R : Type} `{PyFloat R}
    (Wd : speaker_diarize.World R) (dargs : speaker_diarize.Args)
    (Ww : whisper_transcribe.World) (wargs : whisper_transcribe.Args) :
  speaker_diarize.path_exists Wd (speaker_diarize.audio_path dargs) = false →
  whisper_transcribe.path_exists Ww
    (Path (whisper_transcribe.audio_path wargs)) = false →
  let dpath := speaker_diarize.audio_path dargs in
  let wpath := whisper_transcribe.audio_path wargs in
  (run (speaker_diarize.main Wd dargs)
   = ([ speaker_diarize.EvPrint
          (speaker_diarize.Failure ("Audio file not found: " +:+ dpath)) ],
      Exited 1)
   ∧ contains dpath ("Audio file not found: " +:+ dpath) = true)
  ∧ (whisper_transcribe.import_whisper Ww = Ret () →
     run (whisper_transcribe.script Ww wargs)
     = ([ whisper_transcribe.EvImport "whisper";
          whisper_transcribe.EvPrint
            (whisper_transcribe.Failure
               ("Audio file not found: " +:+ Path wpath)) ],
        Exited 1)
     ∧ contains (Path wpath) ("Audio file not found: " +:+ Path wpath) = true
     ∧ (Path wpath = wpath →
        contains wpath ("Audio file not found: " +:+ Path wpath) = true))
  ∧ (∀ msg,
       whisper_transcribe.import_whisper Ww = Raise (ImportError msg) →
       run (whisper_transcribe.script Ww wargs)
       = ([ whisper_transcribe.EvImport "whisper";
            whisper_transcribe.EvPrint
              (whisper_transcribe.Failure
                 whisper_transcribe.not_installed_error) ],
          Exited 1)).
Proof.
  intros Hd Hw dpath wpath. split; [|split].
  - split; [|apply contains_suffix].
    unfold speaker_diarize.main, speaker_diarize.print. rewrite Hd.
    reflexivity.
  - intros Himp. split; [|split].
    + unfold whisper_transcribe.script, whisper_transcribe.main,
        whisper_transcribe.print. unfold_monad. rewrite Himp, Hw.
      reflexivity.
    + apply contains_suffix.
    + intros ->. apply contains_suffix.
  - intros msg Himp.
    unfold whisper_transcribe.script, whisper_transcribe.print.
    unfold_monad. rewrite Himp. reflexivity.
Qed.

Lemma missing_file_reported_before_engine_is_loaded_witness :
  let Wd := diarize_engine.world_yielding (R := Q) [] in
  let dargs := diarize_engine.engine_args "uploads/missing.wav" None in
  let Ww := whisper_engine.world_answering (Ret whisper_engine.example_result) in
  let wargs := whisper_engine.small_args "uploads/missing.wav" None in
  (speaker_diarize.path_exists Wd (speaker_diarize.audio_path dargs) = false
   ∧ whisper_transcribe.path_exists Ww
       (Path (whisper_transcribe.audio_path wargs)) = false)
  ∧ run (speaker_diarize.main Wd dargs)
    = ([ speaker_diarize.EvPrint
           (speaker_diarize.Failure
              "Audio file not found: uploads/missing.wav") ],
       Exited 1)
  ∧ run (whisper_transcribe.script Ww wargs)
    = ([ whisper_transcribe.EvImport "whisper";
         whisper_transcribe.EvPrint
           (whisper_transcribe.Failure
              "Audio file not found: uploads/missing.wav") ],
       Exited 1).
Proof.
  intros Wd dargs Ww wargs.
  pose proof (missing_file_reported_before_engine_is_loaded
                Wd dargs Ww wargs eq_refl eq_refl) as ([Hd _] & Hw & _).
  split; [by split|]. split; [exact Hd|].
  exact (proj1 (Hw eq_refl)).
Defined.

(** C2, as stated, fails for the Transcription Adapter.  Without whisper
    installed the answer to a missing file is the not-installed error,
    which does not hold the path; and with whisper installed the path is
    printed the way pathlib prints it, so for ["./missing.wav"] the error
    holds ["missing.wav"] and not the literal argument. *)
Lemma missing_file_error_can_omit_the_literal_path :
  (whisper_transcribe.path_exists whisper_engine.world_not_installed
     (Path "missing.wav") = false
   ∧ run (whisper_transcribe.script whisper_engine.world_not_installed
            (whisper_engine.small_args "missing.wav" None))
     = ([ whisper_transcribe.EvImport "whisper";
          whisper_transcribe.EvPrint
            (whisper_transcribe.Failure
               "Whisper not installed. Run: pip install openai-whisper") ],
        Exited 1)
   ∧ contains "missing.wav"
       "Whisper not installed. Run: pip install openai-whisper" = false)
  ∧ (whisper_transcribe.path_exists
       (whisper_engine.world_answering (Ret whisper_engine.example_result))
       (Path "./missing.wav") = false
     ∧ run (whisper_transcribe.script
              (whisper_engine.world_answering
                 (Ret whisper_engine.example_result))
              (whisper_engine.small_args "./missing.wav" None))
       = ([ whisper_transcribe.EvImport "whisper";
            whisper_transcribe.EvPrint
              (whisper_transcribe.Failure
                 "Audio file not found: missing.wav") ],
          Exited 1)
     ∧ contains "./missing.wav" "Audio file not found: missing.wav" = false).
Proof. repeat split. Qed.

(** ** End-to-end runs *)

(** X13.  On the engine path with a resolved token, when every engine call
    succeeds the adapter prints [process_results] of the yielded tracks and
    exits with code 0. *)
Lemma main_prints_process_results {R : Type} `{PyFloat R}
    (W : speaker_diarize.World R) (args : speaker_diarize.Args)
    (tok : string) (tracks : list (speaker_diarize.Turn R * string)) :
  speaker_diarize.path_exists W (speaker_diarize.audio_path args) = true →
  speaker_diarize.simple args = false →
  speaker_diarize.import_pyannote W = Ret () →
  speaker_diarize.import_torch W = Ret () →
  speaker_diarize.resolve_token (speaker_diarize.environ W)
    (speaker_diarize.token args) = Some tok →
  tok ≠ "" →
  diarize_engine.yields W (speaker_diarize.audio_path args) tok tracks →
  ∃ calls,
    run (speaker_diarize.main W args)
    = (calls ++ [ speaker_diarize.EvPrint
                    (speaker_diarize.process_results tracks) ],
       Exited 0).
Proof.
  intros Hex Hsimple Hp Ht Htok Hne Hyields.
  pose proof (pyannote_diarization_engine W
                (speaker_diarize.audio_path args) _ tok [] Hp Ht Htok Hne)
    as Hret.
  destruct (engine_body_yields W _ tok tracks
              ([] ++ [speaker_diarize.EvImport "pyannote.audio"]
               ++ [speaker_diarize.EvImport "torch"]) Hyields)
    as [evs Hbody].
  unfold try_except in Hret. rewrite Hbody in Hret.
  eexists. by rewrite (main_engine_path W args _ _ Hex Hsimple Hret).
Qed.

Example diarization_of_three_turns :
  run (speaker_diarize.main
         (diarize_engine.world_yielding
            [ (speaker_diarize.Build_Turn Q 0%Q 2%Q, "SPEAKER_00");
              (speaker_diarize.Build_Turn Q 2%Q (7 # 2)%Q, "SPEAKER_01");
              (speaker_diarize.Build_Turn Q (7 # 2)%Q (13 # 2)%Q, "SPEAKER_00") ])
         (diarize_engine.engine_args "a.wav" None))
  = ([ speaker_diarize.EvImport "pyannote.audio";
       speaker_diarize.EvImport "torch";
       speaker_diarize.EvFromPretrained diarize_engine.checkpoint "hf_secret";
       speaker_diarize.EvCudaIsAvailable;
       speaker_diarize.EvPipelineCall "a.wav";
       speaker_diarize.EvPrint
         (speaker_diarize.Success "pyannote" 2
            [ speaker_diarize.Build_Segment Q 0%Q 2%Q "Speaker 1" 1;
              speaker_diarize.Build_Segment Q 2%Q (7 # 2)%Q "Speaker 2" 2;
              speaker_diarize.Build_Segment Q (7 # 2)%Q (13 # 2)%Q "Speaker 1" 1 ]
            [ speaker_diarize.Build_Speaker Q 1 "Speaker 1" 5%Q;
              speaker_diarize.Build_Speaker Q 2 "Speaker 2" (3 # 2)%Q ]) ],
     Exited 0).
Proof. vm_compute. reflexivity. Qed.

Example Path_examples :
  Path <$> [ ""; "."; "./a.wav"; "a//b/./c/"; "/a"; "//a"; "///a"; "a/.." ]
  = [ "."; "."; "a.wav"; "a/b/c"; "/a"; "//a"; "/a"; "a/.." ].
Proof. vm_compute. reflexivity. Qed.

Example round_half_even_examples :
  fround 2 (1004 # 1000)%Q = 1%Q
  ∧ fround 3 (1004 # 1000)%Q = (251 # 250)%Q
  ∧ fround 2 (1 # 8)%Q = (3 # 25)%Q
  ∧ fround 2 (3 # 8)%Q = (19 # 50)%Q
  ∧ fround 2 (-(1 # 8))%Q = (-3 # 25)%Q.
Proof. vm_compute. repeat split. Qed.

(** A missing ["text"] entry is a [KeyError], which the adapter reports like
    any other exception. *)
Example transcription_without_text_entry :
  run (whisper_transcribe.script
         (whisper_engine.world_answering
            (Ret (whisper_transcribe.Build_EngineResult ∅ None)))
         (whisper_engine.small_args "a.wav" None))
  = ([ whisper_transcribe.EvImport "whisper";
       whisper_transcribe.EvLoadModel "small";
       whisper_transcribe.EvTranscribe "small" "a.wav"
         (whisper_transcribe.Build_Options true false None);
       whisper_transcribe.EvPrint (whisper_transcribe.Failure "'text'") ],
     Exited 1).
Proof. vm_compute. reflexivity. Qed.

(* ===================================================================== *)
(** * Part III: further properties of the scripts                         *)
(* ===================================================================== *)

(** ** The diarization loop *)

Section LoopProperties.
Import speaker_diarize diarize_runs.
Context {R : Type} `{PyFloat R}.
Implicit Types (tracks : list (Turn R * string)) (st : LoopState R).

Lemma build_speakers_names tracks sp :
  sp ∈ build_speakers (speaker_times (run_loop tracks)) →
  sp_name sp = speaker_name (sp_id sp).
Proof.
  rewrite build_speakers_run_loop.
  by intros ([k v] & -> & _)%list_elem_of_fmap.
Qed.

Lemma loop_body_mapping_grows st track :
  speaker_mapping st ⊆ speaker_mapping (loop_body st track).
Proof.
  destruct track as [turn label]. unfold loop_body.
  destruct (speaker_mapping st !! label) eqn:Hm; simpl; [done|].
  by apply insert_subseteq.
Qed.

Lemma run_loop_mapping_grows tracks more :
  speaker_mapping (run_loop tracks) ⊆ speaker_mapping (run_loop (tracks ++ more)).
Proof.
  induction more as [|track more IH] using rev_ind.
  - by rewrite app_nil_r.
  - rewrite app_assoc. unfold run_loop at 2. rewrite foldl_snoc.
    etrans; [exact IH | apply loop_body_mapping_grows].
Qed.

Lemma in_step_loop_body (f : string → string) st st' turn label :
  Inj (=) (=) f →
  in_step f st st' →
  in_step f (loop_body st (turn, label)) (loop_body st' (turn, f label)).
Proof.
  intros Hinj (Hseg & Htimes & Hcounter & Hmap). unfold loop_body.
  rewrite (Hmap label), Hseg, Htimes, Hcounter.
  destruct (speaker_mapping st !! label) as [n|] eqn:Hm.
  - rewrite (lookup_total_correct _ _ _ Hm).
    rewrite (lookup_total_correct (speaker_mapping st') (f label) n)
      by (by rewrite Hmap).
    by repeat split.
  - rewrite !lookup_total_insert_eq. repeat split; try done.
    simpl. intros label'. destruct (decide (label' = label)) as [->|Hne].
    + by rewrite !lookup_insert_eq.
    + rewrite !lookup_insert_ne; [apply Hmap | done |].
      intros Heq. by apply Hinj in Heq.
Qed.

Lemma in_step_run_loop (f : string → string) tracks :
  Inj (=) (=) f →
  in_step f (run_loop tracks) (run_loop (rename_labels f tracks)).
Proof.
  intros Hinj. induction tracks as [|[turn label] tracks IH] using rev_ind.
  - by repeat split.
  - unfold rename_labels, run_loop in *. rewrite fmap_app, !foldl_app.
    by apply (in_step_loop_body f _ _ turn label).
Qed.
End LoopProperties.

(** X1.  In what the engine path returns, segments and speakers agree:
    every segment's [speakerId] is the [id] of a listed speaker, whose
    [name] is the segment's [speaker]; every listed speaker has at least
    one segment; and no two listed speakers share an id. *)
Theorem segments_and_speakers_refer_to_each_other {R : Type} `{PyFloat R}
    (tracks : list (speaker_diarize.Turn R * string)) :
  let st := speaker_diarize.run_loop tracks in
  let segs := speaker_diarize.segments st in
  let sps := speaker_diarize.build_speakers (speaker_diarize.speaker_times st) in
  (∀ seg, seg ∈ segs →
     ∃ sp, sp ∈ sps
           ∧ speaker_diarize.sp_id sp = speaker_diarize.seg_speakerId seg
           ∧ speaker_diarize.sp_name sp = speaker_diarize.seg_speaker seg)
  ∧ (∀ sp, sp ∈ sps →
       ∃ seg, seg ∈ segs
              ∧ speaker_diarize.seg_speakerId seg = speaker_diarize.sp_id sp)
  ∧ NoDup (speaker_diarize.sp_id <$> sps).
Proof.
  intros st segs sps. subst segs sps st.
  pose proof (run_loop_invariant tracks) as Hinv.
  pose proof (build_speakers_ids tracks) as Hids.
  split; [|split].
  - intros seg Hseg.
    rewrite (inv_segments _ _ Hinv) in Hseg.
    apply list_elem_of_fmap in Hseg as (track & -> & Htrack).
    destruct (invariant_lookup_seen tracks _ track.2 Hinv) as (i & Hi & Hlt);
      [by apply list_elem_of_fmap_2|].
    assert (Hin : S i ∈ speaker_diarize.sp_id
                    <$> speaker_diarize.build_speakers
                          (speaker_diarize.speaker_times
                             (speaker_diarize.run_loop tracks)))
      by (rewrite Hids, elem_of_seq; lia).
    apply list_elem_of_fmap in Hin as (sp & Hid & Hsp).
    exists sp. unfold segment_of. simpl.
    rewrite (lookup_total_correct _ _ _ Hi). split; [done|]. split; [done|].
    rewrite (build_speakers_names tracks sp Hsp). by rewrite <- Hid.
  - intros sp Hsp.
    assert (Hin : speaker_diarize.sp_id sp ∈ speaker_diarize.sp_id
                    <$> speaker_diarize.build_speakers
                          (speaker_diarize.speaker_times
                             (speaker_diarize.run_loop tracks)))
      by (by apply list_elem_of_fmap_2).
    rewrite Hids, elem_of_seq in Hin.
    destruct (speaker_diarize.sp_id sp) as [|i] eqn:Hid; [lia|].
    destruct (lookup_lt_is_Some_2 (first_labels tracks.*2) i) as [label Hlabel];
      [lia|].
    pose proof (proj2 (inv_mapping _ _ Hinv label i) Hlabel) as Hm.
    assert (Hl : label ∈ tracks.*2)
      by (by eapply first_labels_elem, list_elem_of_lookup_2).
    apply list_elem_of_fmap in Hl as (track & -> & Htrack).
    exists (segment_of (speaker_diarize.speaker_mapping
                          (speaker_diarize.run_loop tracks)) track).
    split.
    + rewrite (inv_segments _ _ Hinv). by apply list_elem_of_fmap_2.
    + unfold segment_of. simpl. by rewrite (lookup_total_correct _ _ _ Hm).
  - rewrite Hids. apply NoDup_seq.
Qed.

(** X2.  The answer of the engine path does not depend on how the engine
    names its speakers: renaming the labels one-to-one leaves the whole
    result (segments, speakers, speaker count) unchanged.  The labels
    themselves never reach the output. *)
Theorem result_is_invariant_under_label_renaming {R : Type} `{PyFloat R}
    (f : string → string)
    (tracks : list (speaker_diarize.Turn R * string)) :
  Inj (=) (=) f →
  speaker_diarize.process_results (diarize_runs.rename_labels f tracks)
  = speaker_diarize.process_results tracks.
Proof.
  intros Hinj.
  destruct (in_step_run_loop f tracks Hinj) as (Hseg & Htimes & _ & _).
  unfold speaker_diarize.process_results. by rewrite Hseg, Htimes.
Qed.

Lemma result_is_invariant_under_label_renaming_witness :
  let tracks := [ (speaker_diarize.Build_Turn Q 0%Q 2%Q, "A");
                  (speaker_diarize.Build_Turn Q 2%Q 3%Q, "B");
                  (speaker_diarize.Build_Turn Q 3%Q 5%Q, "A") ] in
  speaker_diarize.process_results
    (diarize_runs.rename_labels (String "S"%char) tracks)
  = speaker_diarize.process_results tracks.
Proof.
  intros tracks.
  apply (result_is_invariant_under_label_renaming (String "S"%char) tracks).
  intros x y Heq. by injection Heq.
Defined.

(** X3.  Ids are stable as the engine goes on: after more turns, every
    label met before keeps its id, the segments emitted before are the
    first segments of the longer answer, unchanged, and the speakers known
    before are the first speakers of the longer list. *)
Theorem earlier_turns_keep_their_ids_and_segments {R : Type} `{PyFloat R}
    (tracks more : list (speaker_diarize.Turn R * string)) :
  let st := speaker_diarize.run_loop tracks in
  let st' := speaker_diarize.run_loop (tracks ++ more) in
  (∀ label speaker_id,
     speaker_diarize.speaker_mapping st !! label = Some speaker_id →
     speaker_diarize.speaker_mapping st' !! label = Some speaker_id)
  ∧ (∃ rest,
       speaker_diarize.segments st' = speaker_diarize.segments st ++ rest
       ∧ length rest = length more)
  ∧ (∃ new_ids,
       speaker_diarize.sp_id
         <$> speaker_diarize.build_speakers (speaker_diarize.speaker_times st')
       = (speaker_diarize.sp_id
            <$> speaker_diarize.build_speakers
                  (speaker_diarize.speaker_times st))
         ++ new_ids).
Proof.
  intros st st'. subst st st'.
  pose proof (run_loop_mapping_grows tracks more) as Hsub.
  split; [|split].
  - intros label speaker_id Hm. by eapply lookup_weaken.
  - exists (segment_of (speaker_diarize.speaker_mapping
                          (speaker_diarize.run_loop (tracks ++ more)))
              <$> more).
    split; [|by rewrite length_fmap].
    rewrite (inv_segments _ _ (run_loop_invariant (tracks ++ more))).
    rewrite (inv_segments _ _ (run_loop_invariant tracks)), fmap_app.
    f_equal. apply list_fmap_ext. intros i track Hi.
    destruct (run_loop_labels_mapped tracks track) as [n Hn];
      [by eapply list_elem_of_lookup_2|].
    unfold segment_of.
    rewrite (lookup_total_correct _ _ _ Hn).
    by rewrite (lookup_total_correct _ _ _ (lookup_weaken _ _ _ _ Hn Hsub)).
  - rewrite !build_speakers_ids, fmap_app.
    assert (Hfl : ∀ (l k : list string),
              ∃ new, first_labels (l ++ k) = first_labels l ++ new).
    { intros l k. induction k as [|x k [new IH]] using rev_ind.
      - exists []. by rewrite !app_nil_r.
      - rewrite app_assoc, first_labels_snoc, IH.
        destruct (decide (x ∈ l ++ k)); [by exists new|].
        exists (new ++ [x]). by rewrite app_assoc. }
    destruct (Hfl tracks.*2 more.*2) as [new ->].
    rewrite length_app, seq_app. by eexists.
Qed.

(** ** Whole runs of speaker_diarize.py *)

Section DiarizationRuns.
Import speaker_diarize diarize_engine diarize_runs.
Context {R : Type} `{PyFloat R}.
Implicit Types (W : World R) (args : Args).

Lemma printed_app (tr1 tr2 : list (Event R)) :
  printed (tr1 ++ tr2) = printed tr1 ++ printed tr2.
Proof. unfold printed. apply omap_app. Qed.

(** With a well-behaved world the second [try] always ends in a document,
    having printed nothing. *)
Lemma engine_try_returns_document W path tok tr :
  well_behaved W →
  ∃ doc evs,
    try_except (engine_body W path tok) isinstance_Exception
      (λ e, ret (Failure (py_str e))) tr
    = (Ret doc, tr ++ evs)
    ∧ printed evs = [].
Proof.
  intros (_ & _ & Hfp & Hcuda & Hto & Hcall).
  specialize (Hfp checkpoint tok). specialize (Hto "cuda").
  specialize (Hcall path).
  unfold engine_body. unfold_monad. fold checkpoint.
  destruct (from_pretrained W checkpoint tok) as [[]|e]; simpl in *;
    [|rewrite Hfp; by eexists _, [_]].
  destruct (cuda_is_available W) as [[|]|e]; simpl in *.
  - destruct (pipeline_to W "cuda") as [[]|e]; simpl in *.
    + destruct (pipeline_call W path) as [tracks|e]; simpl in *;
        rewrite ?Hcall, <- !app_assoc; by eexists _, _.
    + rewrite Hto, <- !app_assoc. by eexists _, _.
  - destruct (pipeline_call W path) as [tracks|e]; simpl in *;
      rewrite ?Hcall, <- !app_assoc; by eexists _, _.
  - rewrite Hcuda, <- !app_assoc. by eexists _, _.
Qed.

Lemma pyannote_diarization_returns_document W path hf tr :
  well_behaved W →
  ∃ doc evs,
    pyannote_diarization W path hf tr = (Ret doc, tr ++ evs)
    ∧ printed evs = [].
Proof.
  intros Hwb. pose proof Hwb as (Hp & Ht & _).
  destruct (import_pyannote W) as [[]|e1] eqn:Hp'; simpl in Hp.
  2: { unfold pyannote_diarization. unfold_monad. rewrite Hp', Hp.
       by eexists _, [_]. }
  destruct (import_torch W) as [[]|e2] eqn:Ht'; simpl in Ht.
  2: { unfold pyannote_diarization. unfold_monad. rewrite Hp', Ht'. simpl.
       rewrite Ht, <- app_assoc. by eexists _, _. }
  destruct (truthy (resolve_token (environ W) hf)) eqn:Htruthy.
  - apply truthy_Some in Htruthy as (tok & Htok & Hne).
    rewrite (pyannote_diarization_engine W path hf tok tr Hp' Ht' Htok Hne).
    destruct (engine_try_returns_document W path tok
                (tr ++ [EvImport "pyannote.audio"] ++ [EvImport "torch"]) Hwb)
      as (doc & evs & -> & Hevs).
    exists doc, ([EvImport "pyannote.audio"] ++ [EvImport "torch"] ++ evs).
    split; [by rewrite <- !app_assoc|].
    by rewrite !printed_app, Hevs.
  - rewrite (pyannote_diarization_no_token W path hf tr Hp' Ht' Htruthy).
    by eexists _, _.
Qed.
End DiarizationRuns.

(** X4.  Whatever arguments [parse_args] returned, when imports fail only with
    [ImportError] and engine calls raise only instances of [Exception], a
    run of the Diarization Adapter prints exactly one document, as the
    last thing it does, and its exit code is 0 if that document says
    [success] and 1 otherwise. *)
Theorem diarization_run_prints_one_document {R : Type} `{PyFloat R}
    (W : speaker_diarize.World R) (args : speaker_diarize.Args) :
  diarize_runs.well_behaved W →
  ∃ calls doc,
    run (speaker_diarize.main W args)
    = (calls ++ [speaker_diarize.EvPrint doc],
       Exited (if speaker_diarize.success doc then 0 else 1))
    ∧ diarize_engine.printed calls = [].
Proof.
  intros Hwb. unfold speaker_diarize.main, speaker_diarize.print.
  destruct (speaker_diarize.path_exists W _); simpl.
  - destruct (speaker_diarize.simple args).
    + by exists [], (speaker_diarize.simple_diarization
                       (speaker_diarize.audio_path args)).
    + destruct (pyannote_diarization_returns_document W
                  (speaker_diarize.audio_path args)
                  (speaker_diarize.token args) [] Hwb)
        as (doc & evs & Hret & Hevs).
      exists evs, doc. split; [|done].
      unfold run, bind at 1. rewrite Hret. unfold_monad. simpl.
      by destruct (speaker_diarize.success doc).
  - by exists [], (speaker_diarize.Failure
                     ("Audio file not found: "
                      +:+ speaker_diarize.audio_path args)).
Qed.

Lemma diarization_run_prints_one_document_witness :
  let W := diarize_engine.world_load_raising (R := Q)
             (OtherException "401 Client Error") in
  diarize_runs.well_behaved W
  ∧ ∃ calls doc,
      run (speaker_diarize.main W (diarize_engine.engine_args "a.wav" None))
      = (calls ++ [speaker_diarize.EvPrint doc],
         Exited (if speaker_diarize.success doc then 0 else 1))
      ∧ diarize_engine.printed calls = [].
Proof.
  intros W.
  assert (Hwb : diarize_runs.well_behaved W) by (by repeat split).
  split; [exact Hwb|].
  exact (diarization_run_prints_one_document W
           (diarize_engine.engine_args "a.wav" None) Hwb).
Defined.

(** The log of a run is the log of the script, however it ends. *)
Lemma run_log {Ev : Type} (script : M Ev unit) : (run script).1 = (script []).2.
Proof.
  unfold run. destruct (script []) as [[[]|e] tr]; [done|]. by destruct e.
Qed.

(** X5.  The Diarization Adapter touches the engine only when it should:
    it imports nothing unless the file exists and [--simple] is absent; it
    loads only the fixed checkpoint, only after both imports succeeded, and
    only with the resolved, non-empty token; it moves the pipeline only to
    ["cuda"] and only when CUDA is reported available; and it runs the
    pipeline only on the path given on the command line, after the
    pipeline was loaded. *)
Theorem diarization_engine_calls_are_guarded {R : Type} `{PyFloat R}
    (W : speaker_diarize.World R) (args : speaker_diarize.Args) :
  let log := (run (speaker_diarize.main W args)).1 in
  (∀ module, speaker_diarize.EvImport module ∈ log →
     speaker_diarize.path_exists W (speaker_diarize.audio_path args) = true
     ∧ speaker_diarize.simple args = false)
  ∧ (∀ checkpoint tok,
       speaker_diarize.EvFromPretrained checkpoint tok ∈ log →
       checkpoint = diarize_engine.checkpoint
       ∧ tok ≠ ""
       ∧ speaker_diarize.resolve_token (speaker_diarize.environ W)
           (speaker_diarize.token args) = Some tok
       ∧ speaker_diarize.import_pyannote W = Ret ()
       ∧ speaker_diarize.import_torch W = Ret ())
  ∧ (∀ device, speaker_diarize.EvPipelineTo device ∈ log →
       device = "cuda" ∧ speaker_diarize.cuda_is_available W = Ret true)
  ∧ (∀ path, speaker_diarize.EvPipelineCall path ∈ log →
       path = speaker_diarize.audio_path args
       ∧ ∃ tok, speaker_diarize.from_pretrained W
                  diarize_engine.checkpoint tok = Ret ()).
Proof.
  intros log. subst log. rewrite run_log.
  unfold speaker_diarize.main, speaker_diarize.pyannote_diarization,
    speaker_diarize.engine_body, speaker_diarize.print.
  unfold_monad. fold diarize_engine.checkpoint.
  destruct (speaker_diarize.path_exists W _) eqn:Hex; simpl;
    [|read_log].
  destruct (speaker_diarize.simple args) eqn:Hsimple; simpl;
    [read_log|].
  destruct (speaker_diarize.import_pyannote W) as [[]|e1] eqn:Hp; simpl;
    [|destruct (isinstance_ImportError e1); simpl;
      read_log; done].
  destruct (speaker_diarize.import_torch W) as [[]|e2] eqn:Ht; simpl;
    [|destruct (isinstance_ImportError e2); simpl;
      read_log; done].
  destruct (speaker_diarize.resolve_token _ _) as [tok|] eqn:Htok; simpl;
    [|read_log; done].
  destruct (String.eqb_spec tok "") as [->|Hne]; simpl;
    [read_log; done|].
  destruct (speaker_diarize.from_pretrained W diarize_engine.checkpoint tok)
    as [[]|e3] eqn:Hfp; simpl;
    [|destruct (isinstance_Exception e3); simpl;
      read_log; done].
  destruct (speaker_diarize.cuda_is_available W) as [[|]|e4] eqn:Hcuda; simpl.
  - destruct (speaker_diarize.pipeline_to W "cuda") as [[]|e5]; simpl.
    + destruct (speaker_diarize.pipeline_call W _) as [tracks|e6]; simpl;
        [|destruct (isinstance_Exception e6); simpl];
        read_log; eauto.
    + destruct (isinstance_Exception e5); simpl;
        read_log; done.
  - destruct (speaker_diarize.pipeline_call W _) as [tracks|e6]; simpl;
      [|destruct (isinstance_Exception e6); simpl];
      read_log; eauto.
  - destruct (isinstance_Exception e4); simpl;
      read_log; done.
Qed.

(** ** check_pyannote.py *)

(** X6.  When the import succeeds or fails with [ImportError], the probe
    prints exactly one line and its exit code tells which: 0 with
    ["pyannote available"] exactly when the import succeeded, 1 with
    ["pyannote not available"] exactly when it raised [ImportError]. *)
Theorem probe_exit_code_tells_whether_import_succeeded
    (answer : Outcome unit) :
  import_answer answer →
  let result := run (check_pyannote.script answer) in
  (result.2 = Exited 0 ↔ answer = Ret ())
  ∧ (result.2 = Exited 1 ↔ ∃ msg, answer = Raise (ImportError msg))
  ∧ (answer = Ret () →
     check_pyannote.printed result.1 = ["pyannote available"])
  ∧ ((∃ msg, answer = Raise (ImportError msg)) →
     check_pyannote.printed result.1 = ["pyannote not available"]).
Proof.
  intros Hanswer result. subst result.
  unfold check_pyannote.script, check_pyannote.print. unfold_monad.
  destruct answer as [[]|e]; simpl in *.
  - repeat split; try done; by intros [msg ?].
  - destruct e; try done. simpl.
    repeat split; try done; eauto.
Qed.

Lemma probe_exit_code_tells_whether_import_succeeded_witness :
  let answer := Raise (A := unit) (ImportError "No module named 'pyannote'") in
  import_answer answer
  ∧ (run (check_pyannote.script answer)).2 = Exited 1.
Proof.
  intros answer. split; [reflexivity|].
  apply (proj2 (proj1 (proj2 (probe_exit_code_tells_whether_import_succeeded
                                answer eq_refl)))).
  by eexists.
Defined.

(** X7.  The probe and the adapter do not test the same thing.  Take the
    same environment, parsed arguments, an existing file and no
    [--simple].  Whenever the probe prints ["pyannote not available"]
    (which it does with exit code 1), the adapter prints the "not
    installed" document and exits with code 1.  And whenever
    [pyannote.audio] imports but [import torch] raises [ImportError], the
    probe, which imports only [pyannote.audio], prints ["pyannote
    available"] and exits with 0, while the adapter still prints the "not
    installed" document and exits with code 1. *)
Theorem adapter_needs_torch_beyond_what_the_probe_checks {R : Type} `{PyFloat R}
    (W : speaker_diarize.World R) (args : speaker_diarize.Args) :
  speaker_diarize.path_exists W (speaker_diarize.audio_path args) = true →
  speaker_diarize.simple args = false →
  let probe := run (check_pyannote.script (speaker_diarize.import_pyannote W)) in
  let adapter := run (speaker_diarize.main W args) in
  (check_pyannote.printed probe.1 = ["pyannote not available"] →
   probe.2 = Exited 1
   ∧ adapter
     = ([ speaker_diarize.EvImport "pyannote.audio";
          speaker_diarize.EvPrint
            (speaker_diarize.Failure speaker_diarize.not_installed_error) ],
        Exited 1))
  ∧ (∀ msg,
       speaker_diarize.import_pyannote W = Ret () →
       speaker_diarize.import_torch W = Raise (ImportError msg) →
       probe
       = ([ check_pyannote.EvImport "pyannote.audio";
            check_pyannote.EvPrint "pyannote available" ],
          Exited 0)
       ∧ adapter
         = ([ speaker_diarize.EvImport "pyannote.audio";
              speaker_diarize.EvImport "torch";
              speaker_diarize.EvPrint
                (speaker_diarize.Failure
                   speaker_diarize.not_installed_error) ],
            Exited 1)).
Proof.
  intros Hex Hsimple probe adapter. subst probe adapter.
  unfold speaker_diarize.main, speaker_diarize.pyannote_diarization,
    speaker_diarize.print, check_pyannote.script, check_pyannote.print.
  rewrite Hex, Hsimple. unfold_monad. split.
  - destruct (speaker_diarize.import_pyannote W) as [[]|e]; simpl;
      [done|]. by destruct e.
  - intros msg -> ->. by split.
Qed.

Lemma adapter_needs_torch_beyond_what_the_probe_checks_witness :
  let W := diarize_runs.world_without_torch (R := Q) in
  let args := diarize_engine.engine_args "a.wav" None in
  (speaker_diarize.path_exists W (speaker_diarize.audio_path args) = true
   ∧ speaker_diarize.simple args = false)
  ∧ run (check_pyannote.script (speaker_diarize.import_pyannote W))
    = ([ check_pyannote.EvImport "pyannote.audio";
         check_pyannote.EvPrint "pyannote available" ],
       Exited 0)
  ∧ run (speaker_diarize.main W args)
    = ([ speaker_diarize.EvImport "pyannote.audio";
         speaker_diarize.EvImport "torch";
         speaker_diarize.EvPrint
           (speaker_diarize.Failure speaker_diarize.not_installed_error) ],
       Exited 1).
Proof.
  intros W args. split; [by split|].
  exact (proj2 (adapter_needs_torch_beyond_what_the_probe_checks W args
                  eq_refl eq_refl)
           "No module named 'torch'" eq_refl eq_refl).
Defined.

(** ** Reshaping the transcription *)

Section Reshaping.
Import whisper_transcribe whisper_engine whisper_runs.
Implicit Types (W : World) (args : Args) (d : gmap string Value).

Lemma getitem_outcome d key tr :
  key ∈ required_keys →
  value_or_missing_key (getitem d key tr).1 ∧ (getitem d key tr).2 = tr.
Proof.
  intros Hkey. unfold getitem. destruct (d !! key); simpl; [done|].
  split; [by exists key | done].
Qed.

Lemma for_each_outcome {A S} (xs : list A) (body : S → A → M Event S) acc tr :
  (∀ a x t, value_or_missing_key (body a x t).1) →
  value_or_missing_key (for_each xs body acc tr).1.
Proof.
  intros Hbody. revert acc tr. induction xs as [|x xs IH]; intros acc tr.
  - done.
  - simpl. unfold bind. pose proof (Hbody acc x tr) as Hx.
    destruct (body acc x tr) as [[a|e] t1]; [apply IH | exact Hx].
Qed.

Lemma append_word_outcome words d tr :
  value_or_missing_key (append_word words d tr).1.
Proof.
  unfold append_word, getitem. unfold_monad.
  destruct (d !! "word"); [|exists "word"; split; [done | set_solver]].
  destruct (d !! "start"); [|exists "start"; split; [done | set_solver]].
  destruct (d !! "end"); [done | exists "end"; split; [done | set_solver]].
Qed.

Lemma append_segment_outcome acc segment tr :
  value_or_missing_key (append_segment acc segment tr).1.
Proof.
  unfold append_segment, getitem. unfold bind at 1 2 3.
  destruct (es_fields segment !! "start");
    [|exists "start"; split; [done | set_solver]].
  destruct (es_fields segment !! "end");
    [|exists "end"; split; [done | set_solver]].
  destruct (es_fields segment !! "text");
    [|exists "text"; split; [done | set_solver]].
  unfold ret at 1 2 3. destruct (es_words segment) as [ws|]; [|done].
  unfold bind.
  pose proof (for_each_outcome ws append_word acc.2 tr append_word_outcome)
    as Hws.
  by destruct (for_each ws append_word acc.2 tr) as [[r|e] t1].
Qed.

(** The reshaping ends in a success document or in the [KeyError] of a
    required key. *)
Lemma format_result_outcome result tr :
  match (format_result result tr).1 with
  | Ret doc => success doc = true
  | Raise e => ∃ key, e = KeyError key ∧ key ∈ required_keys
  end.
Proof.
  unfold format_result, getitem. unfold bind at 1.
  destruct (er_fields result !! "text");
    [|exists "text"; split; [done | set_solver]].
  unfold ret at 1. unfold bind.
  destruct (er_segments result) as [segs|]; [|done].
  pose proof (for_each_outcome segs append_segment ([], []) tr
                append_segment_outcome) as Hsegs.
  by destruct (for_each segs append_segment ([], []) tr) as [[r|e] t1].
Qed.

(** One round of the outer loop, with or without a ["words"] key. *)
Lemma append_segment_entry acc segment sd wds tr :
  segment_entry segment sd → segment_words segment wds →
  append_segment acc segment tr = (Ret (acc.1 ++ [sd], acc.2 ++ wds), tr).
Proof.
  intros Hsd Hwds. destruct sd as [s e t].
  unfold segment_words in Hwds.
  destruct (es_words segment) as [ws|] eqn:Hws; simpl in Hwds.
  - by apply (append_segment_with_words acc segment s e t ws wds).
  - apply Forall2_nil_inv_l in Hwds as ->.
    destruct Hsd as (Hs & He & Ht). simpl in *.
    unfold append_segment, getitem. unfold_monad.
    by rewrite Hs, He, Ht, Hws, app_nil_r.
Qed.

Lemma for_each_append_segment segs sds wdss acc tr :
  Forall2 segment_entry segs sds →
  Forall2 segment_words segs wdss →
  for_each segs append_segment acc tr
  = (Ret (acc.1 ++ sds, acc.2 ++ concat wdss), tr).
Proof.
  intros Hsds. revert wdss acc.
  induction Hsds as [|segment sd segs sds Hsd _ IH]; intros wdss acc Hwdss.
  - apply Forall2_nil_inv_l in Hwdss as ->. simpl. unfold ret.
    rewrite !app_nil_r. by destruct acc.
  - apply Forall2_cons_inv_l in Hwdss as (wds & wdss' & Hwds & Hwdss & ->).
    simpl. unfold bind.
    rewrite (append_segment_entry acc segment sd wds tr Hsd Hwds).
    rewrite (IH _ _ Hwdss). simpl. by rewrite <- !app_assoc.
Qed.
End Reshaping.

(** X8.  The reshaping keeps everything in order, for any number of
    segments and words: [text] is the engine's, there is one entry of
    [segments] per engine segment, in order, and [words] is the
    concatenation, segment after segment, of the entries of each segment's
    words; a segment without a ["words"] key contributes none, and a result
    without a ["segments"] key gives two empty lists.  The engine is not
    called and nothing is printed meanwhile. *)
Theorem reshaping_lists_every_word_of_every_segment_in_order
    (result : whisper_transcribe.EngineResult)
    (text : whisper_transcribe.Value)
    (sds : list whisper_transcribe.SegmentData)
    (wdss : list (list whisper_transcribe.WordData))
    (tr : list whisper_transcribe.Event) :
  whisper_transcribe.er_fields result !! "text" = Some text →
  Forall2 whisper_runs.segment_entry
    (default [] (whisper_transcribe.er_segments result)) sds →
  Forall2 whisper_runs.segment_words
    (default [] (whisper_transcribe.er_segments result)) wdss →
  whisper_transcribe.format_result result tr
  = (Ret (whisper_transcribe.Success text
            (default (whisper_transcribe.VStr "unknown")
               (whisper_transcribe.er_fields result !! "language"))
            sds (concat wdss)),
     tr).
Proof.
  intros Htext Hsds Hwdss.
  unfold whisper_transcribe.format_result, whisper_transcribe.getitem.
  rewrite Htext. unfold bind at 1, ret at 1. unfold bind.
  destruct (whisper_transcribe.er_segments result) as [segs|]; simpl in *.
  - by rewrite (for_each_append_segment segs sds wdss ([], []) tr Hsds Hwdss).
  - apply Forall2_nil_inv_l in Hsds as ->.
    by apply Forall2_nil_inv_l in Hwdss as ->.
Qed.

Lemma reshaping_lists_every_word_of_every_segment_in_order_witness :
  let word := whisper_transcribe.Build_WordData in
  let f x := whisper_transcribe.VFloat x in
  let s x := whisper_transcribe.VStr x in
  whisper_transcribe.format_result whisper_engine.example_result []
  = (Ret (whisper_transcribe.Success (s " hi you there now") (s "en")
            [ whisper_transcribe.Build_SegmentData (f 0%Q) (f 1%Q) (s " hi you");
              whisper_transcribe.Build_SegmentData (f 1%Q) (f 2%Q) (s " there now") ]
            (concat
               [ [ word (s " hi") (f 0%Q) (f (1 # 2)%Q);
                   word (s " you") (f (1 # 2)%Q) (f 1%Q) ];
                 [ word (s " there") (f 1%Q) (f (3 # 2)%Q);
                   word (s " now") (f (3 # 2)%Q) (f 2%Q) ] ])),
     []).
Proof.
  intros word f s.
  apply (reshaping_lists_every_word_of_every_segment_in_order
           whisper_engine.example_result (s " hi you there now")).
  - reflexivity.
  - repeat constructor.
  - repeat constructor.
Defined.

(** ** Whole runs of whisper_transcribe.py *)

Section WhisperRuns.
Import whisper_transcribe whisper_engine whisper_runs.
Implicit Types (W : World) (args : Args).

Lemma whisper_printed_app (tr1 tr2 : list Event) :
  printed (tr1 ++ tr2) = printed tr1 ++ printed tr2.
Proof. unfold printed. apply omap_app. Qed.

(** With a well-behaved world [transcribe_audio] always returns a
    document, having printed nothing. *)
Lemma transcribe_audio_returns_document W path model lang tr :
  well_behaved W →
  ∃ doc evs,
    transcribe_audio W path model lang tr = (Ret doc, tr ++ evs)
    ∧ printed evs = [].
Proof.
  intros (_ & Hload & Htrans).
  specialize (Hload model). specialize (Htrans model path (build_options lang)).
  unfold transcribe_audio, engine_body. unfold try_except, bind at 1 2, call.
  destruct (load_model W model) as [[]|e]; simpl in *;
    [|rewrite Hload; by eexists _, [_]].
  destruct (transcribe W model path (build_options lang)) as [result|e];
    simpl in *; [|rewrite Htrans, <- app_assoc; by eexists _, _].
  pose proof (format_result_outcome result
                ((tr ++ [EvLoadModel model])
                 ++ [EvTranscribe model path (build_options lang)])) as Hout.
  destruct (format_result result _) as [[doc|e] tr'] eqn:Hf;
    apply format_result_silent in Hf as ->; simpl in Hout.
  - rewrite <- app_assoc. by eexists _, _.
  - destruct Hout as (key & -> & _). simpl.
    rewrite <- app_assoc. by eexists _, _.
Qed.
End WhisperRuns.

(** ** Missing entries *)

Section MissingEntries.
Import whisper_transcribe whisper_engine whisper_runs.
Implicit Types (d : gmap string Value) (segment : EngineSegment).

Lemma append_word_cases words d tr :
  (∃ wd, word_entry d wd
         ∧ append_word words d tr = (Ret (words ++ [wd]), tr))
  ∨ (∃ key, word_lacks d key
            ∧ append_word words d tr = (Raise (KeyError key), tr)).
Proof.
  destruct (d !! "word") as [w|] eqn:Hw.
  2: { right. exists "word". split; [split; [set_solver | done]|].
       unfold append_word, getitem. unfold_monad. by rewrite Hw. }
  destruct (d !! "start") as [s|] eqn:Hs.
  2: { right. exists "start". split; [split; [set_solver | done]|].
       unfold append_word, getitem. unfold_monad. by rewrite Hw, Hs. }
  destruct (d !! "end") as [e|] eqn:He.
  2: { right. exists "end". split; [split; [set_solver | done]|].
       unfold append_word, getitem. unfold_monad. by rewrite Hw, Hs, He. }
  left. exists {| wd_word := w; wd_start := s; wd_end := e |}.
  split; [done|]. by apply append_word_has_word.
Qed.

Lemma for_each_append_word_cases (ws : list (gmap string Value)) acc tr :
  (∃ wds, Forall2 word_entry ws wds
          ∧ for_each ws append_word acc tr = (Ret (acc ++ wds), tr))
  ∨ (∃ key d, d ∈ ws ∧ word_lacks d key
              ∧ for_each ws append_word acc tr = (Raise (KeyError key), tr)).
Proof.
  revert acc. induction ws as [|d ws IH]; intros acc.
  - left. exists []. split; [constructor|]. simpl. unfold ret.
    by rewrite app_nil_r.
  - simpl. unfold bind.
    destruct (append_word_cases acc d tr) as [(wd & Hwd & ->)|(key & Hkey & ->)].
    + destruct (IH (acc ++ [wd])) as [(wds & Hwds & ->)|(key & d' & Hd' & Hkey & ->)].
      * left. exists (wd :: wds). split; [by constructor|].
        by rewrite <- app_assoc.
      * right. exists key, d'. split; [by right | done].
    + right. exists key, d. split; [by left | done].
Qed.

Lemma append_segment_cases acc segment tr :
  (∃ sd wds, segment_entry segment sd ∧ segment_words segment wds
             ∧ append_segment acc segment tr
               = (Ret (acc.1 ++ [sd], acc.2 ++ wds), tr))
  ∨ (∃ key, segment_lacks segment key
            ∧ append_segment acc segment tr = (Raise (KeyError key), tr)).
Proof.
  destruct (es_fields segment !! "start") as [s|] eqn:Hs.
  2: { right. exists "start". split; [left; split; [set_solver | done]|].
       unfold append_segment, getitem. unfold_monad. by rewrite Hs. }
  destruct (es_fields segment !! "end") as [e|] eqn:He.
  2: { right. exists "end". split; [left; split; [set_solver | done]|].
       unfold append_segment, getitem. unfold_monad. by rewrite Hs, He. }
  destruct (es_fields segment !! "text") as [t|] eqn:Ht.
  2: { right. exists "text". split; [left; split; [set_solver | done]|].
       unfold append_segment, getitem. unfold_monad. by rewrite Hs, He, Ht. }
  assert (Hsd : segment_entry segment
                  {| sd_start := s; sd_end := e; sd_text := t |}) by done.
  destruct (es_words segment) as [ws|] eqn:Hws.
  - destruct (for_each_append_word_cases ws acc.2 tr)
      as [(wds & Hwds & Hrun)|(key & d & Hd & Hkey & Hrun)].
    + left. eexists _, wds. split; [exact Hsd|].
      split; [by unfold segment_words; rewrite Hws|].
      apply append_segment_entry; [done|].
      by unfold segment_words; rewrite Hws.
    + right. exists key. split.
      * right. exists d. by rewrite Hws.
      * unfold append_segment, getitem. unfold bind, ret.
        by rewrite Hs, He, Ht, Hws, Hrun.
  - left. eexists _, []. split; [exact Hsd|].
    assert (Hnone : segment_words segment [])
      by (unfold segment_words; rewrite Hws; constructor).
    split; [exact Hnone|]. by apply append_segment_entry.
Qed.

Lemma for_each_append_segment_cases (segs : list EngineSegment) acc tr :
  (∃ sds wdss, Forall2 segment_entry segs sds
               ∧ Forall2 segment_words segs wdss
               ∧ for_each segs append_segment acc tr
                 = (Ret (acc.1 ++ sds, acc.2 ++ concat wdss), tr))
  ∨ (∃ key segment, segment ∈ segs ∧ segment_lacks segment key
                    ∧ for_each segs append_segment acc tr
                      = (Raise (KeyError key), tr)).
Proof.
  revert acc. induction segs as [|segment segs IH]; intros acc.
  - left. exists [], []. split; [constructor|]. split; [constructor|].
    simpl. unfold ret. rewrite !app_nil_r. by destruct acc.
  - simpl. unfold bind.
    destruct (append_segment_cases acc segment tr)
      as [(sd & wds & Hsd & Hwds & ->)|(key & Hkey & ->)].
    + destruct (IH (acc.1 ++ [sd], acc.2 ++ wds))
        as [(sds & wdss & Hsds & Hwdss & ->)
           |(key & segment' & Hin & Hkey & ->)].
      * left. exists (sd :: sds), (wds :: wdss).
        split; [by constructor|]. split; [by constructor|].
        simpl. by rewrite <- !app_assoc.
      * right. exists key, segment'. split; [by right | done].
    + right. exists key, segment. split; [by left | done].
Qed.

(** The reshaping either lists everything or stops at an entry that is
    not there. *)
Lemma format_result_cases result tr :
  (∃ text sds wdss,
     er_fields result !! "text" = Some text
     ∧ Forall2 segment_entry (default [] (er_segments result)) sds
     ∧ Forall2 segment_words (default [] (er_segments result)) wdss
     ∧ format_result result tr
       = (Ret (Success text
                 (default (VStr "unknown") (er_fields result !! "language"))
                 sds (concat wdss)), tr))
  ∨ (∃ key, lacks result key
            ∧ format_result result tr = (Raise (KeyError key), tr)).
Proof.
  destruct (er_fields result !! "text") as [text|] eqn:Htext.
  2: { right. exists "text". split; [by left|].
       unfold format_result, getitem. unfold_monad. by rewrite Htext. }
  unfold format_result, getitem. rewrite Htext.
  unfold bind at 1, ret at 1. unfold bind.
  destruct (er_segments result) as [segs|] eqn:Hsegs; simpl.
  - destruct (for_each_append_segment_cases segs ([], []) tr)
      as [(sds & wdss & Hsds & Hwdss & ->)|(key & segment & Hin & Hkey & ->)].
    + left. by exists text, sds, wdss.
    + right. exists key. split; [|done]. right. exists segment.
      by rewrite Hsegs.
  - left. exists text, [], []. repeat split; constructor.
Qed.

(** An answer all of whose entries were read lacks nothing. *)
Lemma entries_lack_nothing result text sds wdss key :
  er_fields result !! "text" = Some text →
  Forall2 segment_entry (default [] (er_segments result)) sds →
  Forall2 segment_words (default [] (er_segments result)) wdss →
  ¬ lacks result key.
Proof.
  intros Htext Hsds Hwdss [[_ Hnone]|(segment & Hin & Hlacks)]; [congruence|].
  apply list_elem_of_lookup_1 in Hin as [i Hi].
  destruct (Forall2_lookup_l _ _ _ _ _ Hsds Hi) as (sd & _ & Hs & He & Ht).
  destruct (Forall2_lookup_l _ _ _ _ _ Hwdss Hi) as (wds & _ & Hwds).
  destruct Hlacks as [[Hkey Hnone]|(d & Hd & Hkey & Hnone)].
  - repeat (apply elem_of_cons in Hkey as [->|Hkey]; [congruence|]).
    by apply elem_of_nil in Hkey.
  - apply list_elem_of_lookup_1 in Hd as [j Hj].
    destruct (Forall2_lookup_l _ _ _ _ _ Hwds Hj) as (wd & _ & Hw & Hs' & He').
    repeat (apply elem_of_cons in Hkey as [->|Hkey]; [congruence|]).
    by apply elem_of_nil in Hkey.
Qed.
End MissingEntries.

(** X9.  Take an engine answer of the documented shape (scalar entries,
    ["segments"] when present a list of dictionaries, ["words"] when
    present a list of dictionaries).  Once the model is loaded and the
    engine has given that answer, the adapter returns a document and
    exactly one of two things holds.  If some entry the script reads is
    missing (["text"] of the result; ["start"], ["end"] or ["text"] of a
    segment; ["word"], ["start"] or ["end"] of a word), the document is a
    failure whose error is the quoted name of a key that is missing
    somewhere: one missing entry fails the whole transcription.  If none
    is missing, the document is the complete success: the text, one entry
    per segment in order, and every word of every segment in order. *)
Theorem one_missing_entry_fails_the_whole_transcription
    (W : whisper_transcribe.World) (path model : string)
    (lang : option string) (result : whisper_transcribe.EngineResult)
    (tr : list whisper_transcribe.Event) :
  whisper_transcribe.load_model W model = Ret () →
  whisper_transcribe.transcribe W model path
    (whisper_transcribe.build_options lang) = Ret result →
  whisper_runs.shaped result →
  ∃ doc,
    whisper_transcribe.transcribe_audio W path model lang tr
    = (Ret doc,
       tr ++ [ whisper_transcribe.EvLoadModel model;
               whisper_transcribe.EvTranscribe model path
                 (whisper_transcribe.build_options lang) ])
    ∧ ((∃ key, whisper_runs.lacks result key) →
       ∃ key, whisper_runs.lacks result key
              ∧ doc = whisper_transcribe.Failure ("'" +:+ key +:+ "'"))
    ∧ ((∀ key, ¬ whisper_runs.lacks result key) →
       ∃ text sds wdss,
         whisper_transcribe.er_fields result !! "text" = Some text
         ∧ Forall2 whisper_runs.segment_entry
             (default [] (whisper_transcribe.er_segments result)) sds
         ∧ Forall2 whisper_runs.segment_words
             (default [] (whisper_transcribe.er_segments result)) wdss
         ∧ doc = whisper_transcribe.Success text
                   (default (whisper_transcribe.VStr "unknown")
                      (whisper_transcribe.er_fields result !! "language"))
                   sds (concat wdss)).
Proof.
  intros Hl Ht _.
  unfold whisper_transcribe.transcribe_audio, whisper_transcribe.engine_body.
  unfold try_except, bind at 1 2, call. rewrite Hl, Ht.
  destruct (format_result_cases result
              ((tr ++ [whisper_transcribe.EvLoadModel model])
               ++ [whisper_transcribe.EvTranscribe model path
                     (whisper_transcribe.build_options lang)]))
    as [(text & sds & wdss & Htext & Hsds & Hwdss & ->)|(key & Hkey & ->)].
  - eexists. rewrite <- app_assoc. split; [done|]. split.
    + intros [key Hkey].
      by destruct (entries_lack_nothing result text sds wdss key).
    + intros _. by exists text, sds, wdss.
  - simpl. eexists. rewrite <- app_assoc. split; [done|]. split.
    + intros _. by exists key.
    + intros Hnone. by destruct (Hnone key).
Qed.

Lemma one_missing_entry_fails_the_whole_transcription_witness :
  let incomplete_word : gmap string whisper_transcribe.Value :=
    {[ "word" := whisper_transcribe.VStr " you";
       "start" := whisper_transcribe.VFloat (1 # 2) ]} in
  let broken :=
    whisper_transcribe.Build_EngineResult
      {[ "text" := whisper_transcribe.VStr " hi you" ]}
      (Some [ whisper_transcribe.Build_EngineSegment
                {[ "start" := whisper_transcribe.VFloat 0;
                   "end" := whisper_transcribe.VFloat 1;
                   "text" := whisper_transcribe.VStr " hi you" ]}
                (Some [ whisper_engine.example_word " hi" 0 (1 # 2);
                        incomplete_word ]) ]) in
  let W := whisper_engine.world_answering (Ret broken) in
  (whisper_runs.shaped broken ∧ whisper_runs.lacks broken "end")
  ∧ ∃ doc,
      whisper_transcribe.transcribe_audio W "a.wav" "small" None []
      = (Ret doc,
         [ whisper_transcribe.EvLoadModel "small";
           whisper_transcribe.EvTranscribe "small" "a.wav"
             (whisper_transcribe.build_options None) ])
      ∧ ∃ key, whisper_runs.lacks broken key
               ∧ doc = whisper_transcribe.Failure ("'" +:+ key +:+ "'").
Proof.
  intros incomplete_word broken W.
  assert (Hshaped : whisper_runs.shaped broken).
  { split; [reflexivity|]. repeat constructor. }
  assert (Hlacks : whisper_runs.lacks broken "end").
  { right. eexists. split; [left|]. right. exists incomplete_word.
    split; [right; left|]. split; [set_solver | reflexivity]. }
  split; [by split|].
  destruct (one_missing_entry_fails_the_whole_transcription
              W "a.wav" "small" None broken [] eq_refl eq_refl Hshaped)
    as (doc & Hrun & Hmissing & _).
  exists doc. split; [exact Hrun|]. apply Hmissing. by exists "end".
Defined.

(** X10.  Take the arguments [parse_args] returned and suppose the
    existence check [Path(audio_path).exists()] returned an answer.  When
    [import whisper] fails only with [ImportError] and the engine raises
    only instances of [Exception], the run prints exactly one document,
    as the last thing it does, and its exit code is 0 if that document
    says [success] and 1 otherwise.  With whisper imported, that document
    is the file-not-found failure when the check answered no, and the
    document [transcribe_audio] returned when it answered yes. *)
Theorem transcription_run_prints_one_document
    (W : whisper_transcribe.World) (args : whisper_transcribe.Args)
    (found : bool) :
  whisper_runs.well_behaved W →
  whisper_transcribe.path_exists W
    (Path (whisper_transcribe.audio_path args)) = found →
  ∃ calls doc,
    run (whisper_transcribe.script W args)
    = (calls ++ [whisper_transcribe.EvPrint doc],
       Exited (if whisper_transcribe.success doc then 0 else 1))
    ∧ whisper_engine.printed calls = []
    ∧ (whisper_transcribe.import_whisper W = Ret () →
       if found
       then whisper_transcribe.transcribe_audio W
              (whisper_transcribe.audio_path args)
              (whisper_transcribe.model args)
              (whisper_transcribe.arg_language args)
              [whisper_transcribe.EvImport "whisper"]
            = (Ret doc, calls)
       else calls = [whisper_transcribe.EvImport "whisper"]
            ∧ doc = whisper_transcribe.Failure
                      ("Audio file not found: "
                       +:+ Path (whisper_transcribe.audio_path args))).
Proof.
  intros Hwb Hex. pose proof Hwb as (Himp & _).
  destruct (whisper_transcribe.import_whisper W) as [[]|e] eqn:Hi;
    simpl in Himp.
  - destruct found.
    + destruct (transcribe_audio_returns_document W
                  (whisper_transcribe.audio_path args)
                  (whisper_transcribe.model args)
                  (whisper_transcribe.arg_language args)
                  [whisper_transcribe.EvImport "whisper"] Hwb)
        as (doc & evs & Hret & Hevs).
      exists ([whisper_transcribe.EvImport "whisper"] ++ evs), doc.
      split; [by rewrite (script_transcribes W args _ _ Hi Hex Hret)|].
      split; [by rewrite whisper_printed_app, Hevs | done].
    + exists [whisper_transcribe.EvImport "whisper"].
      eexists (whisper_transcribe.Failure _). split; [|by split].
      unfold whisper_transcribe.script, whisper_transcribe.main,
        whisper_transcribe.print. unfold_monad. by rewrite Hi, Hex.
  - exists [whisper_transcribe.EvImport "whisper"].
    eexists (whisper_transcribe.Failure _). split; [|split; [done|]].
    + unfold whisper_transcribe.script, whisper_transcribe.print.
      unfold_monad. by rewrite Hi, Himp.
    + intros [=].
Qed.

Lemma transcription_run_prints_one_document_witness :
  let W := whisper_engine.world_load_raising (OtherException "out of memory") in
  let args := whisper_engine.small_args "a.wav" None in
  (whisper_runs.well_behaved W
   ∧ whisper_transcribe.path_exists W
       (Path (whisper_transcribe.audio_path args)) = true)
  ∧ ∃ calls doc,
      run (whisper_transcribe.script W args)
      = (calls ++ [whisper_transcribe.EvPrint doc],
         Exited (if whisper_transcribe.success doc then 0 else 1))
      ∧ whisper_engine.printed calls = []
      ∧ whisper_transcribe.transcribe_audio W "a.wav" "small" None
          [whisper_transcribe.EvImport "whisper"]
        = (Ret doc, calls).
Proof.
  intros W args.
  assert (Hwb : whisper_runs.well_behaved W) by (by repeat split).
  split; [by split|].
  destruct (transcription_run_prints_one_document W args true Hwb eq_refl)
    as (calls & doc & Hrun & Hcalls & Hdoc).
  exists calls, doc. split; [exact Hrun|]. split; [exact Hcalls|].
  exact (Hdoc eq_refl).
Defined.

(** X11.  The Transcription Adapter touches the engine only when it
    should: it loads only the model named on the command line, only after
    the import succeeded and the existence check passed; and it
    transcribes only after that model loaded, only the [audio_path]
    argument exactly as it was typed (the existence check looked at
    pathlib's rendering of it), and only with the options made from
    [--language], word timestamps always requested. *)
Theorem transcription_engine_calls_are_guarded
    (W : whisper_transcribe.World) (args : whisper_transcribe.Args) :
  let log := (run (whisper_transcribe.script W args)).1 in
  (∀ model_name, whisper_transcribe.EvLoadModel model_name ∈ log →
     model_name = whisper_transcribe.model args
     ∧ whisper_transcribe.import_whisper W = Ret ()
     ∧ whisper_transcribe.path_exists W
         (Path (whisper_transcribe.audio_path args)) = true)
  ∧ (∀ model_name audio options,
       whisper_transcribe.EvTranscribe model_name audio options ∈ log →
       model_name = whisper_transcribe.model args
       ∧ audio = whisper_transcribe.audio_path args
       ∧ options = whisper_transcribe.build_options
                     (whisper_transcribe.arg_language args)
       ∧ whisper_transcribe.word_timestamps options = true
       ∧ whisper_transcribe.load_model W model_name = Ret ()).
Proof.
  intros log. subst log. rewrite run_log.
  assert (Hts : whisper_transcribe.word_timestamps
                  (whisper_transcribe.build_options
                     (whisper_transcribe.arg_language args)) = true).
  { unfold whisper_transcribe.build_options. by destruct (_ && _). }
  destruct (whisper_transcribe.script W args []) as [outcome log] eqn:Hrun.
  simpl. revert Hrun.
  unfold whisper_transcribe.script, whisper_transcribe.main,
    whisper_transcribe.transcribe_audio, whisper_transcribe.engine_body,
    whisper_transcribe.print.
  unfold_monad.
  destruct (whisper_transcribe.import_whisper W) as [[]|e1] eqn:Hi; simpl;
    [|destruct (isinstance_ImportError e1); simpl;
      intros [= <- <-]; read_log].
  destruct (whisper_transcribe.path_exists W _) eqn:Hex; simpl;
    [|intros [= <- <-]; read_log].
  destruct (whisper_transcribe.load_model W _) as [[]|e2] eqn:Hl; simpl;
    [|destruct (isinstance_Exception e2); simpl;
      intros [= <- <-]; read_log; done].
  destruct (whisper_transcribe.transcribe W _ _ _) as [result|e3]; simpl;
    [|destruct (isinstance_Exception e3); simpl;
      intros [= <- <-]; read_log; done].
  destruct (whisper_transcribe.format_result result _) as [[doc|e4] tr'] eqn:Hf;
    apply format_result_silent in Hf as ->; simpl.
  - destruct (whisper_transcribe.success doc); simpl;
      intros [= <- <-]; read_log; done.
  - destruct (isinstance_Exception e4); simpl;
      intros [= <- <-]; read_log; done.
Qed.

(** ** An engine that yields nothing *)

(** X12.  An engine that finds no turn is not an error: the engine path
    then answers with a success of zero speakers and no segments, and zero
    is the speaker count of no other engine output. *)
Theorem no_turns_is_a_success_without_speakers {R : Type} `{PyFloat R}
    (tracks : list (speaker_diarize.Turn R * string)) :
  speaker_diarize.process_results (R := R) []
  = speaker_diarize.Success "pyannote" 0 [] []
  ∧ ((∃ method segs sps,
        speaker_diarize.process_results tracks
        = speaker_diarize.Success method 0 segs sps)
     ↔ tracks = []).
Proof.
  split; [reflexivity|]. split.
  - intros (method & segs & sps & Hres).
    rewrite process_results_shape in Hres. injection Hres as _ Hlen _ _.
    destruct tracks as [|[turn label] tracks]; [done|]. discriminate Hlen.
  - intros ->. exists "pyannote", [], []. reflexivity.
Qed.

Lemma main_prints_process_results_witness :
  let W := diarize_runs.world_with_cuda (R := Q) [] in
  let args := diarize_engine.engine_args "a.wav" (Some "hf_cli") in
  (speaker_diarize.path_exists W (speaker_diarize.audio_path args) = true
   ∧ speaker_diarize.simple args = false
   ∧ speaker_diarize.import_pyannote W = Ret ()
   ∧ speaker_diarize.import_torch W = Ret ()
   ∧ speaker_diarize.resolve_token (speaker_diarize.environ W)
       (speaker_diarize.token args) = Some "hf_cli"
   ∧ diarize_engine.yields W (speaker_diarize.audio_path args) "hf_cli" [])
  ∧ ∃ calls,
      run (speaker_diarize.main W args)
      = (calls ++ [ speaker_diarize.EvPrint
                      (speaker_diarize.Success "pyannote" 0 [] []) ],
         Exited 0).
Proof.
  intros W args.
  assert (Hyields : diarize_engine.yields W
                      (speaker_diarize.audio_path args) "hf_cli" []).
  { split; [reflexivity|]. split; [right; by split | reflexivity]. }
  refine (conj (conj eq_refl (conj eq_refl (conj eq_refl (conj eq_refl
            (conj eq_refl Hyields))))) _).
  refine (main_prints_process_results W args "hf_cli" []
            eq_refl eq_refl eq_refl eq_refl eq_refl _ Hyields).
  discriminate.
Defined.
